(** * Session and message lifecycle of the chat client (frontend/src/App.jsx)

    A shallow embedding of the three handlers of the [App] component that own
    the conversation state: [fetchChatHistory] (the History Loader),
    [handleNewChat] (the Session Manager) and [handleSubmit] (the Exchange
    Orchestrator), followed by the properties the specification states about
    them. *)

From Stdlib Require Import List String Ascii ZArith Bool Lia DecimalString.
Import ListNotations.

Local Open Scope string_scope.
Local Open Scope Z_scope.
Set Warnings "-register-all".

(** ** JavaScript values

    The values that flow through the handlers: what [response.json()] can
    yield (null, booleans, numbers, strings, arrays, plain objects), the
    [undefined] that reading a missing property yields, and the [Date] objects
    made by [new Date()].  Numbers are integers ([length] and the comparison
    with 0 are all the code does with one); a string is a sequence of 8-bit
    code units; a [Date] is held as the text its [toJSON] produces; the
    property list of an object is in enumeration order, with unique keys. *)

Inductive JSValue : Type :=
| JUndefined
| JNull
| JBool (b : bool)
| JNum (n : Z)
| JStr (s : string)
| JArr (items : list JSValue)
| JObj (props : list (string * JSValue))
| JDate (iso : string).

(** What a [throw] or a rejected promise carries. *)
Inductive Exn : Type :=
| TypeError
| SyntaxError
| OtherError (name : string).

(** The completion of an expression: a value or a throw. *)
Inductive Res (A : Type) : Type :=
| Normal (a : A)
| Throw (e : Exn).
Arguments Normal {A} a.
Arguments Throw {A} e.

Definition bind {A B : Type} (r : Res A) (k : A -> Res B) : Res B :=
  match r with
  | Normal a => k a
  | Throw e => Throw e
  end.

Notation "x <- r ;; k" := (bind r (fun x => k))
  (at level 61, r at next level, right associativity).

(** ToBoolean. *)
Definition truthy (v : JSValue) : bool :=
  match v with
  | JUndefined | JNull => false
  | JBool b => b
  | JNum n => negb (n =? 0)
  | JStr s => negb (String.eqb s "")
  | JArr _ | JObj _ | JDate _ => true
  end.

Fixpoint lookup (k : string) (props : list (string * JSValue)) : option JSValue :=
  match props with
  | [] => None
  | (k', v) :: rest => if String.eqb k k' then Some v else lookup k rest
  end.

Definition or_undefined (o : option JSValue) : JSValue :=
  match o with
  | Some v => v
  | None => JUndefined
  end.

(** [v.k] for a data property [k]: the field of an object, the [length] of an
    array or a string, [undefined] where there is none; reading a property of
    [undefined] or [null] throws a TypeError.  (Inherited methods are not data:
    the one the code calls, [map], is modelled where it is called.) *)
Definition get_prop (v : JSValue) (k : string) : Res JSValue :=
  match v with
  | JUndefined | JNull => Throw TypeError
  | JObj props => Normal (or_undefined (lookup k props))
  | JArr items =>
      if String.eqb k "length" then Normal (JNum (Z.of_nat (List.length items)))
      else Normal JUndefined
  | JStr s =>
      if String.eqb k "length" then Normal (JNum (Z.of_nat (String.length s)))
      else Normal JUndefined
  | JBool _ | JNum _ | JDate _ => Normal JUndefined
  end.

Definition index_key (i : nat) : string := NilEmpty.string_of_uint (Nat.to_uint i).

(** [v[i]] for an array index [i]. *)
Definition get_index (v : JSValue) (i : nat) : Res JSValue :=
  match v with
  | JUndefined | JNull => Throw TypeError
  | JArr items => Normal (nth i items JUndefined)
  | JStr s =>
      match String.get i s with
      | Some c => Normal (JStr (String c EmptyString))
      | None => Normal JUndefined
      end
  | JObj props => Normal (or_undefined (lookup (index_key i) props))
  | JBool _ | JNum _ | JDate _ => Normal JUndefined
  end.

(** ** String.prototype.trim

    White space and line terminators of the language that fit a code unit of
    this model: TAB, LF, VT, FF, CR, SP and NBSP. *)
Definition is_white_space (c : ascii) : bool :=
  let n := nat_of_ascii c in
  (Nat.eqb n 9 || Nat.eqb n 10 || Nat.eqb n 11 || Nat.eqb n 12 || Nat.eqb n 13
   || Nat.eqb n 32 || Nat.eqb n 160)%bool.

Fixpoint trimStart (s : string) : string :=
  match s with
  | EmptyString => EmptyString
  | String c rest => if is_white_space c then trimStart rest else s
  end.

Fixpoint trimEnd (s : string) : string :=
  match s with
  | EmptyString => EmptyString
  | String c rest =>
      match trimEnd rest with
      | EmptyString => if is_white_space c then EmptyString else String c EmptyString
      | kept => String c kept
      end
  end.

Definition trim (s : string) : string := trimEnd (trimStart s).

(** ** Component state, effects and the handler monad *)

(** A message of the transcript: [{ text, isUser, timestamp }]. *)
Record Message : Type := {
  text : JSValue;
  isUser : bool;
  timestamp : JSValue
}.

(** The four [useState] cells of [App]. *)
Record AppState : Type := {
  prompt : string;
  messages : list Message;
  chatSessions : list (list Message);
  isLoading : bool
}.

Definition maxMessagesPerSession : Z := 20.

Inductive Request : Type :=
| GetHistory
| GenerateContent (key : JSValue) (promptText : string)
| SaveChat (promptText : string) (response : JSValue).

Inductive Logged : Type :=
| LoggedValue (v : JSValue)
| LoggedExn (e : Exn).

(** What a handler does to the world outside the component state. *)
Inductive Event : Type :=
| PreventDefault
| Alert (msg : string)
| Fetch (req : Request)
| ConsoleError (label : string) (what : Logged)
| LocalStorageSetItem (key : string) (value : string).

(** The component state together with the effects performed so far, oldest
    first. *)
Record Store : Type := {
  app : AppState;
  trace : list Event
}.

(** A handler: it transforms the store and completes with a value or a
    throw. *)
Definition M (A : Type) : Type := Store -> Store * Res A.

Definition ret {A : Type} (a : A) : M A := fun s => (s, Normal a).

Definition raise {A : Type} (e : Exn) : M A := fun s => (s, Throw e).

Definition mbind {A B : Type} (m : M A) (k : A -> M B) : M B :=
  fun s =>
    match m s with
    | (s', Normal a) => k a s'
    | (s', Throw e) => (s', Throw e)
    end.

Notation "x <~ m ;; k" := (mbind m (fun x => k))
  (at level 61, m at next level, right associativity).
Notation "m ;;; k" := (mbind m (fun _ => k))
  (at level 61, right associativity).

Definition lift {A : Type} (r : Res A) : M A := fun s => (s, r).

(** [try { body } catch (e) { handler e } finally { fin }]. *)
Definition try_catch_finally {A : Type}
    (body : M A) (handler : Exn -> M A) (fin : M unit) : M A :=
  fun s =>
    let (s1, r1) := body s in
    let (s2, r2) := match r1 with
                    | Normal a => (s1, Normal a)
                    | Throw e => handler e s1
                    end in
    let (s3, r3) := fin s2 in
    match r3 with
    | Normal _ => (s3, r2)
    | Throw e => (s3, Throw e)
    end.

Definition try_catch {A : Type} (body : M A) (handler : Exn -> M A) : M A :=
  try_catch_finally body handler (ret tt).

(** A promise as the handler meets it at an [await]. *)
Inductive Settled (A : Type) : Type :=
| Fulfilled (a : A)
| Rejected (e : Exn).
Arguments Fulfilled {A} a.
Arguments Rejected {A} e.

Definition await {A : Type} (p : Settled A) : M A :=
  match p with
  | Fulfilled a => ret a
  | Rejected e => raise e
  end.

(** The [Response] a fetch resolves to; the handlers only call its [json()]. *)
Record Response : Type := { json : Settled JSValue }.

Definition emit (e : Event) : M unit :=
  fun s => ({| app := app s; trace := trace s ++ [e] |}, Normal tt).

Definition update (f : AppState -> AppState) : M unit :=
  fun s => ({| app := f (app s); trace := trace s |}, Normal tt).

Definition setPrompt (p : string) : M unit :=
  update (fun a => {| prompt := p; messages := messages a;
                      chatSessions := chatSessions a; isLoading := isLoading a |}).

Definition setMessages (ms : list Message) : M unit :=
  update (fun a => {| prompt := prompt a; messages := ms;
                      chatSessions := chatSessions a; isLoading := isLoading a |}).

Definition setChatSessions (ss : list (list Message)) : M unit :=
  update (fun a => {| prompt := prompt a; messages := messages a;
                      chatSessions := ss; isLoading := isLoading a |}).

Definition setIsLoading (b : bool) : M unit :=
  update (fun a => {| prompt := prompt a; messages := messages a;
                      chatSessions := chatSessions a; isLoading := b |}).

Definition console_error (label : string) (what : Logged) : M unit :=
  emit (ConsoleError label what).

(** [localStorage.setItem(k, v)], which completes as [outcome]: the value is
    stored, or the call throws (the quota is exceeded, the storage is not
    available) and nothing is stored. *)
Definition setItem (k v : string) (outcome : Res unit) : M unit :=
  match outcome with
  | Normal _ => emit (LocalStorageSetItem k v)
  | Throw e => raise e
  end.

(** The store a handler leaves, and how it completes. *)
Definition exec {A : Type} (m : M A) (s : Store) : Store := fst (m s).
Definition completion {A : Type} (m : M A) (s : Store) : Res A := snd (m s).

(** ** Array helpers *)

(** [Array.prototype.findIndex]: the first index whose element satisfies [p],
    or -1. *)
Fixpoint findIndex_from {A : Type} (p : A -> bool) (l : list A) (i : Z) : Z :=
  match l with
  | [] => -1
  | x :: rest => if p x then i else findIndex_from p rest (i + 1)
  end.

Definition findIndex {A : Type} (p : A -> bool) (l : list A) : Z :=
  findIndex_from p l 0.

Fixpoint map_res {A B : Type} (f : A -> Res B) (l : list A) : Res (list B) :=
  match l with
  | [] => Normal []
  | x :: rest =>
      y <- f x ;;
      ys <- map_res f rest ;;
      Normal (y :: ys)
  end.

(** [v.map(f)]: only an array has the method; on anything else the call
    throws a TypeError. *)
Definition js_map {B : Type} (f : JSValue -> Res B) (v : JSValue) : Res (list B) :=
  match v with
  | JArr items => map_res f items
  | _ => Throw TypeError
  end.

(** A message as the object it is, for [JSON.stringify]. *)
Definition message_value (m : Message) : JSValue :=
  JObj [("text", text m); ("isUser", JBool (isUser m)); ("timestamp", timestamp m)].

Definition session_value (ms : list Message) : JSValue :=
  JArr (map message_value ms).

(** ** What a submission meets *)

(** What [handleSubmit] hands back to the form: nothing, or the navigation
    element of the unauthenticated branch. *)
Inductive ReturnValue : Type :=
| RetUndefined
| RetNavigate (to : string).

(** What one call of [handleSubmit] meets outside the component: the clock
    at the two [new Date()] and the two promises it awaits. *)
Record Round : Type := {
  at_submit : string;
  generation : Settled Response;
  at_reply : string;
  persistence : Settled Response
}.

(** What the rest of [handleSubmit] has captured when it reaches its first
    [await]: the [prompt] of the render it was called in and [newMessages]. *)
Record Closure : Type := {
  c_prompt : string;
  c_newMessages : list Message
}.

(** One use of the form in a session: what the user types, and what the call
    then meets. *)
Record Submission : Type := {
  typed : string;
  round : Round
}.

(** ** Reading a trace and a transcript *)

(** The network calls of a trace, in order. *)
Definition requests (t : list Event) : list Request :=
  flat_map (fun e => match e with Fetch req => [req] | _ => [] end) t.

(** The notices shown to the user. *)
Definition alerts (t : list Event) : list string :=
  flat_map (fun e => match e with Alert msg => [msg] | _ => [] end) t.

(** What was written to the error console. *)
Definition errors (t : list Event) : list (string * Logged) :=
  flat_map (fun e => match e with ConsoleError l w => [(l, w)] | _ => [] end) t.

(** The user-authored turns of a transcript. *)
Definition user_turns (ms : list Message) : nat :=
  List.length (filter isUser ms).

Definition user_message (p now : string) : Message :=
  {| text := JStr p; isUser := true; timestamp := JDate now |}.

Definition bot_message (reply : JSValue) (now : string) : Message :=
  {| text := reply; isUser := false; timestamp := JDate now |}.

Definition nullish (v : JSValue) : bool :=
  match v with
  | JUndefined | JNull => true
  | _ => false
  end.

(** ** The response contract of the generation service (specification 6)

    A well-formed body is [{ candidates: [{ content: { parts: [{ text }] } },
    ...], ... }]. *)
Definition reply_path (first : JSValue) : Res JSValue :=
  content <- get_prop first "content" ;;
  parts <- get_prop content "parts" ;;
  part <- get_index parts 0 ;;
  get_prop part "text".

Definition carries_reply (data reply : JSValue) : Prop :=
  exists first rest,
    get_prop data "candidates" = Normal (JArr (first :: rest))
    /\ reply_path first = Normal reply.

(** The body has no [candidates] (the property is missing or null), or an
    empty array of them. *)
Definition lacks_candidates (data : JSValue) : Prop :=
  exists candidates,
    get_prop data "candidates" = Normal candidates
    /\ (nullish candidates = true \/ candidates = JArr []).

(** The first candidate stops short of [content.parts[0]]: it, its [content],
    the [parts] of that or their first element is [undefined] or [null]. *)
Inductive stops_short (first : JSValue) : Prop :=
| short_candidate :
    nullish first = true -> stops_short first
| short_content content :
    get_prop first "content" = Normal content ->
    nullish content = true -> stops_short first
| short_parts content parts :
    get_prop first "content" = Normal content ->
    get_prop content "parts" = Normal parts ->
    nullish parts = true -> stops_short first
| short_part content parts part :
    get_prop first "content" = Normal content ->
    get_prop content "parts" = Normal parts ->
    get_index parts 0 = Normal part ->
    nullish part = true -> stops_short first.

(** How the generation call of a round can fail (specification 4.3, step 5),
    and what the console then gets: the transport fails or the body does not
    decode (the error, under ["Error:"]); the body is [null], so that reading
    its candidates throws (a TypeError, under ["Error:"]); or it decodes to a
    response without candidates (the response, under
    ["Unexpected API response:"]). *)
Inductive generation_fails (r : Round) : string * Logged -> Prop :=
| failed_transport e :
    generation r = Rejected e ->
    generation_fails r ("Error:", LoggedExn e)
| failed_decoding response e :
    generation r = Fulfilled response ->
    json response = Rejected e ->
    generation_fails r ("Error:", LoggedExn e)
| failed_null_body response data :
    generation r = Fulfilled response ->
    json response = Fulfilled data ->
    nullish data = true ->
    generation_fails r ("Error:", LoggedExn TypeError)
| failed_malformed response data :
    generation r = Fulfilled response ->
    json response = Fulfilled data ->
    lacks_candidates data ->
    generation_fails r ("Unexpected API response:", LoggedValue data).

Definition generation_failed (r : Round) : Prop :=
  exists entry, generation_fails r entry.

(** The generation call of a round answers with reply [reply]. *)
Definition generation_replied (r : Round) (reply : JSValue) : Prop :=
  exists response data,
    generation r = Fulfilled response
    /\ json response = Fulfilled data
    /\ carries_reply data reply.

(** ** The history records of the remote store (specification 4.2) *)

Record HistoryRecord : Type := {
  h_prompt : JSValue;
  h_response : JSValue;
  h_timestamp : JSValue
}.

Definition record_value (h : HistoryRecord) : JSValue :=
  JObj [("prompt", h_prompt h); ("response", h_response h);
        ("timestamp", h_timestamp h)].

(** The two messages the specification gives for one record. *)
Definition spec_expansion (h : HistoryRecord) : list Message :=
  [ {| text := h_prompt h; isUser := true; timestamp := h_timestamp h |};
    {| text := h_response h; isUser := false; timestamp := h_timestamp h |} ].

(** ** Instances for the examples

    A rendering in the manner of [JSON.stringify] (strings are quoted as they
    are), and the coercion of an operand to NaN, which makes the comparison
    false. *)
Definition is_undefined (v : JSValue) : bool :=
  match v with
  | JUndefined => true
  | _ => false
  end.

Definition quoted (s : string) : string :=
  String (ascii_of_nat 34) (s ++ String (ascii_of_nat 34) EmptyString).

Fixpoint plain_stringify (v : JSValue) : string :=
  match v with
  | JUndefined | JNull => "null"
  | JBool b => if b then "true" else "false"
  | JNum n => NilZero.string_of_int (Z.to_int n)
  | JStr s => quoted s
  | JDate iso => quoted iso
  | JArr items => "[" ++ String.concat "," (map plain_stringify items) ++ "]"
  | JObj props =>
      "{" ++ String.concat ","
               (flat_map (fun kv =>
                            let (k, x) := kv : string * JSValue in
                            if is_undefined x then []
                            else [quoted k ++ ":" ++ plain_stringify x]) props)
          ++ "}"
  end.

Definition nan_coercion (v : JSValue) : Res bool := Normal false.

(** A signed-in user, a key, and the two instants of a round. *)
Definition ann : JSValue := JObj [("name", JStr "ann")].
Definition demo_key : JSValue := JStr "demo-key".
Definition t_submit : string := "2025-01-01T10:00:00.000Z".
Definition t_reply : string := "2025-01-01T10:00:02.000Z".

(** The component with [p] in the input and [ms] in the buffer, at rest. *)
Definition asking (p : string) (ms : list Message) : Store :=
  {| app := {| prompt := p; messages := ms; chatSessions := []; isLoading := false |};
     trace := [] |}.

(** The component as it is mounted. *)
Definition mounted : Store := asking "" [].

(** The component with [ms] in the buffer and [archive] as its sessions. *)
Definition archived (ms : list Message) (archive : list (list Message)) : Store :=
  {| app := {| prompt := ""; messages := ms; chatSessions := archive;
               isLoading := false |};
     trace := [] |}.

(** A response body whose first candidate is [candidate], and the well-formed
    body with reply [reply]. *)
Definition body_with (candidate : JSValue) : JSValue :=
  JObj [("candidates", JArr [candidate])].

Definition reply_body (reply : JSValue) : JSValue :=
  body_with (JObj [("content", JObj [("parts", JArr [JObj [("text", reply)]])])]).

(** A first candidate whose only part has no [text], and one with no part. *)
Definition textless : JSValue := JObj [("content", JObj [("parts", JArr [JObj []])])].
Definition partless : JSValue := JObj [("content", JObj [("parts", JArr [])])].

Definition delivered (data : JSValue) : Settled Response :=
  Fulfilled {| json := Fulfilled data |}.

(** Rounds: the service answers with [data] and the save succeeds; the
    service answers with [data] and the save fails; the service cannot be
    reached. *)
Definition answered (data : JSValue) : Round :=
  {| at_submit := t_submit; generation := delivered data;
     at_reply := t_reply; persistence := delivered JNull |}.

Definition answered_unsaved (data : JSValue) : Round :=
  {| at_submit := t_submit; generation := delivered data;
     at_reply := t_reply; persistence := Rejected TypeError |}.

Definition unreachable : Round :=
  {| at_submit := t_submit; generation := Rejected TypeError;
     at_reply := t_reply; persistence := Rejected TypeError |}.

Definition asked (p : string) (r : Round) : Submission :=
  {| typed := p; round := r |}.

(** A buffer of twenty user turns, with one more prompt typed. *)
Definition at_limit : Store :=
  asking "one more" (repeat (user_message "q" t_submit) 20).

(** A session in which the service fails once and then replies; one in which
    it replies twice; one in which it is never reached. *)
Definition failed_then_replied : list Submission :=
  [asked "q1" unreachable; asked "q2" (answered (reply_body (JStr "hi")))].

Definition replied_twice : list Submission :=
  [asked "q1" (answered (reply_body (JStr "a1")));
   asked "q2" (answered (reply_body (JStr "a2")))].

Definition never_reached (n : nat) : list Submission :=
  repeat (asked "q" unreachable) n.

(** A one-message transcript, and an archive that holds it twice. *)
Definition greeting : list Message := [user_message "hello" t_submit].
Definition doubled : list (list Message) := [greeting; greeting].

(** ** Vocabulary of the further properties *)

(** What was written to [localStorage], and the exchanges the save calls of a
    trace carry. *)
Definition writes (t : list Event) : list (string * string) :=
  flat_map (fun e => match e with LocalStorageSetItem k v => [(k, v)] | _ => [] end) t.

Definition saves (t : list Event) : list (string * JSValue) :=
  flat_map (fun e => match e with Fetch (SaveChat p r) => [(p, r)] | _ => [] end) t.

(** The value under the key ["chatSessions"] after the writes of a trace. *)
Definition persisted (t : list Event) : option string :=
  fold_left (fun held kv => if String.eqb (fst kv) "chatSessions" then Some (snd kv)
                            else held)
            (writes t) None.

(** What a message says and who says it, its instant left aside. *)
Definition authored (m : Message) : JSValue * bool := (text m, isUser m).

(** The two lines of the exchange a save call carries. *)
Definition exchange_lines (pr : string * JSValue) : list (JSValue * bool) :=
  [(JStr (fst pr), true); (snd pr, false)].

(** The record of the history store holds the exchange of the save call. *)
Definition records_exchange (h : HistoryRecord) (pr : string * JSValue) : Prop :=
  h_prompt h = JStr (fst pr) /\ h_response h = snd pr.

(** Every character of the string is white space. *)
Fixpoint all_white_space (s : string) : bool :=
  match s with
  | EmptyString => true
  | String c rest => is_white_space c && all_white_space rest
  end.

(** The property [k] of an element of the history array that is not
    [undefined] or [null]. *)
Definition field (chat : JSValue) (k : string) : JSValue :=
  match get_prop chat k with
  | Normal v => v
  | Throw _ => JUndefined
  end.

Definition loose_expansion (chat : JSValue) : list Message :=
  [ {| text := field chat "prompt"; isUser := true;
       timestamp := field chat "timestamp" |};
    {| text := field chat "response"; isUser := false;
       timestamp := field chat "timestamp" |} ].

(** An answer of the history store the loader cannot use: the transport
    fails, the body does not decode, it is not an array, or an element of the
    array is [null]. *)
Inductive history_unusable (answer : Settled Response) : Prop :=
| unusable_transport e :
    answer = Rejected e -> history_unusable answer
| unusable_decoding response e :
    answer = Fulfilled response ->
    json response = Rejected e -> history_unusable answer
| unusable_shape response data :
    answer = Fulfilled response ->
    json response = Fulfilled data ->
    (forall items, data <> JArr items) -> history_unusable answer
| unusable_element response items :
    answer = Fulfilled response ->
    json response = Fulfilled (JArr items) ->
    Exists (fun chat => nullish chat = true) items -> history_unusable answer.

(** What can happen to the component between renders: a submission that runs
    to its completion, the new-chat button (with how its write to
    [localStorage] completes), a run of the history effect. *)
Inductive Action : Type :=
| Submit (sub : Submission)
| NewChat (stored : Res unit)
| LoadHistory (answer : Settled Response).

(** Every write of the new-chat button succeeds. *)
Definition writes_succeed (acts : list Action) : Prop :=
  Forall (fun a => match a with
                   | NewChat stored => stored = Normal tt
                   | _ => True
                   end) acts.

(** The throw of a write when the storage is full. *)
Definition quota_exceeded : Exn := OtherError "QuotaExceededError".

(** Ten records of the history store, and an array with a hole. *)
Definition ten_records : list HistoryRecord :=
  repeat {| h_prompt := JStr "a"; h_response := JStr "b"; h_timestamp := JStr "T" |} 10.

Definition holed : JSValue :=
  JArr [JObj [("prompt", JStr "a"); ("response", JStr "b")]; JNull].

(** An array whose elements are not records. *)
Definition odd_elements : list JSValue :=
  [JStr "abc"; JObj [("prompt", JStr "a")]; JNum 7].

(** The component while ["q1"] waits for its reply, and while ["q2"], sent
    after it, waits as well. *)
Definition waiting_one : Store :=
  {| app := {| prompt := ""; messages := [user_message "q1" t_submit];
               chatSessions := []; isLoading := true |};
     trace := [PreventDefault; Fetch (GenerateContent demo_key "q1")] |}.

Definition waiting_two : Store :=
  {| app := {| prompt := "";
               messages := [user_message "q1" t_submit; user_message "q2" t_submit];
               chatSessions := []; isLoading := true |};
     trace := [PreventDefault; Fetch (GenerateContent demo_key "q1");
               PreventDefault; Fetch (GenerateContent demo_key "q2")] |}.

(** A day of use: an answered question, a new chat, a history load, a new
    chat whose write fails, a question that fails, and the new chat pressed
    twice.  And a shorter day on which every write succeeds. *)
Definition busy_day : list Action :=
  [Submit (asked "q1" (answered (reply_body (JStr "a1"))));
   NewChat (Normal tt);
   LoadHistory (delivered (JArr (map record_value ten_records)));
   NewChat (Throw quota_exceeded);
   Submit (asked "q2" unreachable);
   NewChat (Normal tt);
   NewChat (Normal tt)].

Definition quiet_day : list Action :=
  [Submit (asked "q1" (answered (reply_body (JStr "a1"))));
   NewChat (Normal tt);
   LoadHistory (delivered (JArr (map record_value ten_records)));
   NewChat (Normal tt)].

(** Twenty user turns in the buffer and only white space typed. *)
Definition at_limit_blank : Store :=
  asking "   " (repeat (user_message "q" t_submit) 20).

(** ** The handlers *)

Section Handlers.

(** [JSON.stringify], and the outcome of [v > 0] on an operand that is not
    a number, a boolean, [null] or [undefined] (the language coerces it
    first, and the coercion of an object can throw): the handlers are
    embedded over any behaviour of the two. *)
Variable JSON_stringify : JSValue -> string.
Variable coerced_gt_zero : JSValue -> Res bool.

(** The [user] of the authentication context and the configured API key. *)
Variable user : JSValue.
Variable apiKey : JSValue.

(** [v > 0]. *)
Definition js_gt_zero (v : JSValue) : Res bool :=
  match v with
  | JNum n => Normal (0 <? n)
  | JBool b => Normal b
  | JUndefined | JNull => Normal false
  | JStr _ | JArr _ | JObj _ | JDate _ => coerced_gt_zero v
  end.

(** *** History Loader (lines 31-51) *)

Definition expand (chat : JSValue) : Res (list Message) :=
  p <- get_prop chat "prompt" ;;
  t <- get_prop chat "timestamp" ;;
  r <- get_prop chat "response" ;;
  t' <- get_prop chat "timestamp" ;;
  Normal [ {| text := p; isUser := true; timestamp := t |};
           {| text := r; isUser := false; timestamp := t' |} ].

Definition fetchChatHistory (answer : Settled Response) : M unit :=
  try_catch
    (emit (Fetch GetHistory) ;;;
     response <~ await answer ;;
     data <~ await (json response) ;;
     history <~ lift (js_map expand data) ;;
     setMessages (List.concat history))
    (fun error => console_error "Error fetching chat history:" (LoggedExn error)).

(** The effect that runs when [user] changes. *)
Definition history_effect (answer : Settled Response) : M unit :=
  if negb (truthy user) then ret tt else fetchChatHistory answer.

(** *** Session Manager (lines 53-66)

    [stored] is how the call of [localStorage.setItem] at line 62 completes,
    when the handler gets there; the handler has no [try], so a throw of the
    write is a throw of the handler, after [setChatSessions] and before
    [setMessages]. *)
Definition handleNewChat (stored : Res unit) : M unit :=
  fun s =>
    let messages := messages (app s) in
    let chatSessions := chatSessions (app s) in
    ((if 0 <? Z.of_nat (List.length messages) then
        let existingSessionIndex :=
          findIndex
            (fun session =>
               String.eqb (JSON_stringify (session_value session))
                          (JSON_stringify (session_value messages)))
            chatSessions in
        if existingSessionIndex =? -1 then
          let updatedSessions := (chatSessions ++ [messages])%list in
          setChatSessions updatedSessions ;;;
          setItem "chatSessions"
            (JSON_stringify (JArr (map session_value updatedSessions))) stored
        else ret tt
      else ret tt) ;;;
     setMessages []) s.

(** *** Exchange Orchestrator (lines 68-124) *)

(** Lines 69-86: the guards, and what an accepted call does before the
    guarded region. *)
Definition submit_prefix (now : string) : M (ReturnValue + Closure) :=
  fun s =>
    let prompt := prompt (app s) in
    let messages := messages (app s) in
    (emit PreventDefault ;;;
     if negb (truthy user) then ret (inl (RetNavigate "/login"))
     else if negb (truthy (JStr (trim prompt))) then ret (inl RetUndefined)
     else if Z.of_nat (List.length messages) >=? maxMessagesPerSession then
       emit (Alert "Chat limit reached. Please start a new chat.") ;;;
       ret (inl RetUndefined)
     else
       let newMessages :=
         (messages ++ [ {| text := JStr prompt; isUser := true;
                           timestamp := JDate now |} ])%list in
       setMessages newMessages ;;;
       setPrompt "" ;;;
       setIsLoading true ;;;
       ret (inr {| c_prompt := prompt; c_newMessages := newMessages |})) s.

(** Line 103: [data.candidates && data.candidates.length > 0]. *)
Definition has_candidates (data : JSValue) : Res bool :=
  candidates <- get_prop data "candidates" ;;
  if truthy candidates then
    candidates' <- get_prop data "candidates" ;;
    len <- get_prop candidates' "length" ;;
    js_gt_zero len
  else Normal false.

(** Line 104: [data.candidates[0].content.parts[0].text]. *)
Definition botReply_of (data : JSValue) : Res JSValue :=
  candidates <- get_prop data "candidates" ;;
  first <- get_index candidates 0 ;;
  content <- get_prop first "content" ;;
  parts <- get_prop content "parts" ;;
  part <- get_index parts 0 ;;
  get_prop part "text".

(** Lines 90-99: the call of [fetch] on the generation endpoint. *)
Definition request_generation (c : Closure) : M unit :=
  emit (Fetch (GenerateContent apiKey (c_prompt c))).

(** Lines 103-118: what the [try] does with the decoded body. *)
Definition on_data (c : Closure) (r : Round) (data : JSValue) : M unit :=
  ok <~ lift (has_candidates data) ;;
  if (ok : bool) then
    botReply <~ lift (botReply_of data) ;;
    setMessages (c_newMessages c
                 ++ [ {| text := botReply; isUser := false;
                         timestamp := JDate (at_reply r) |} ])%list ;;;
    emit (Fetch (SaveChat (c_prompt c) botReply)) ;;;
    _ <~ await (persistence r) ;;
    ret tt
  else console_error "Unexpected API response:" (LoggedValue data).

(** Lines 90-118: the body of the [try]. *)
Definition submit_guarded (c : Closure) (r : Round) : M unit :=
  request_generation c ;;;
  response <~ await (generation r) ;;
  data <~ await (json response) ;;
  on_data c r data.

Definition handleSubmit (r : Round) : M ReturnValue :=
  entry <~ submit_prefix (at_submit r) ;;
  match entry with
  | inl v => ret v
  | inr c =>
      try_catch_finally
        (submit_guarded c r)
        (fun error => console_error "Error:" (LoggedExn error))
        (setIsLoading false) ;;;
      ret RetUndefined
  end.

(** The store while an accepted call waits for the generation service: what
    the prefix and the call of [fetch] leave. *)
Definition pending_store (now : string) (s : Store) : option Store :=
  match submit_prefix now s with
  | (s', Normal (inr c)) => Some (exec (request_generation c) s')
  | _ => None
  end.

(** The three guards of lines 70-78. *)
Definition accepted (s : Store) : bool :=
  truthy user
  && negb (String.eqb (trim (prompt (app s))) "")
  && (Z.of_nat (List.length (messages (app s))) <? maxMessagesPerSession).

(** *** Sessions of several submissions *)

(** One use of the form: the user types [typed] (the input's [onChange]
    sets [prompt]) and submits; the call runs to its completion. *)
Definition submit (sub : Submission) : M ReturnValue :=
  setPrompt (typed sub) ;;; handleSubmit (round sub).

Definition run_session (subs : list Submission) (s : Store) : Store :=
  fold_left (fun s sub => exec (submit sub) s) subs s.

(** *** Stores and outcomes named in the properties *)

(** How a call that fails a guard ends: the state untouched, the trace
    grown by the default-prevention and by [extra]. *)
Definition refused (s : Store) (extra : list Event) (v : ReturnValue)
  : Store * Res (ReturnValue + Closure) :=
  ({| app := app s; trace := (trace s ++ PreventDefault :: extra)%list |},
   Normal (inl v)).

(** The store an accepted call leaves at the end of its prefix. *)
Definition entered (now : string) (s : Store) : Store :=
  {| app := {| prompt := "";
               messages := (messages (app s)
                            ++ [user_message (prompt (app s)) now])%list;
               chatSessions := chatSessions (app s);
               isLoading := true |};
     trace := (trace s ++ [PreventDefault])%list |}.

(** What the rest of that call has captured. *)
Definition closure_of (now : string) (s : Store) : Closure :=
  {| c_prompt := prompt (app s);
     c_newMessages := (messages (app s)
                       ++ [user_message (prompt (app s)) now])%list |}.

(** Where the guarded region and its handlers leave the store when the
    region ends in state [s1]: the [catch] logs a throw, the [finally]
    clears the loading flag. *)
Definition settle (s1 : Store) (r1 : Res unit) : Store :=
  let s2 := match r1 with
            | Normal _ => s1
            | Throw e => exec (console_error "Error:" (LoggedExn e)) s1
            end in
  exec (setIsLoading false) s2.

(** A transcript as [handleNewChat] compares it. *)
Definition serial (ms : list Message) : string :=
  JSON_stringify (session_value ms).

(** The store while a submission of a session waits for the generation
    service, when it is accepted. *)
Definition submission_pending (sub : Submission) (s : Store) : option Store :=
  pending_store (at_submit (round sub)) (exec (setPrompt (typed sub)) s).

(** The generation call of the submission is answered with a reply. *)
Definition replied (sub : Submission) : Prop :=
  exists reply, generation_replied (round sub) reply.

(** *** The rest of a call, and runs of the component *)

(** What an accepted call of [handleSubmit] does from its first [await] on
    (lines 90-123 after the call of [fetch]), in whatever store it finds when
    it is resumed. *)
Definition submit_resume (c : Closure) (r : Round) : M unit :=
  try_catch_finally
    (response <~ await (generation r) ;;
     data <~ await (json response) ;;
     on_data c r data)
    (fun error => console_error "Error:" (LoggedExn error))
    (setIsLoading false).

Definition step (s : Store) (a : Action) : Store :=
  match a with
  | Submit sub => exec (submit sub) s
  | NewChat stored => exec (handleNewChat stored) s
  | LoadHistory answer => exec (history_effect answer) s
  end.

Definition run (acts : list Action) (s : Store) : Store :=
  fold_left step acts s.

(** The archive as [handleNewChat] writes it to [localStorage]. *)
Definition archive_text (archive : list (list Message)) : string :=
  JSON_stringify (JArr (map session_value archive)).

(** The stored copy is the archive: nothing was written and the archive is
    empty, or the last write holds the archive. *)
Definition in_sync (s : Store) : Prop :=
  match persisted (trace s) with
  | None => chatSessions (app s) = []
  | Some held => held = archive_text (chatSessions (app s))
  end.

(** The stored copy is the archive as it was at some earlier point: nothing
    was written, or the last write holds the first sessions of the archive. *)
Definition behind (s : Store) : Prop :=
  match persisted (trace s) with
  | None => True
  | Some held =>
      exists earlier later,
        chatSessions (app s) = (earlier ++ later)%list
        /\ held = archive_text earlier
  end.

(** What the component keeps at rest. *)
Definition at_rest (s : Store) : Prop :=
  isLoading (app s) = false
  /\ NoDup (map serial (chatSessions (app s)))
  /\ Forall (fun session => session <> []) (chatSessions (app s)).

(** ** Properties *)

(** *** Traces *)

Lemma requests_app t1 t2 : requests (t1 ++ t2) = (requests t1 ++ requests t2)%list.
Proof. unfold requests. now rewrite flat_map_app. Qed.

Lemma alerts_app t1 t2 : alerts (t1 ++ t2) = (alerts t1 ++ alerts t2)%list.
Proof. unfold alerts. now rewrite flat_map_app. Qed.

Lemma errors_app t1 t2 : errors (t1 ++ t2) = (errors t1 ++ errors t2)%list.
Proof. unfold errors. now rewrite flat_map_app. Qed.

Lemma user_turns_le_length ms : (user_turns ms <= List.length ms)%nat.
Proof. unfold user_turns. apply filter_length_le. Qed.

Lemma user_turns_app ms1 ms2 :
  user_turns (ms1 ++ ms2) = (user_turns ms1 + user_turns ms2)%nat.
Proof. unfold user_turns. now rewrite filter_app, length_app. Qed.

(** *** The guards of [handleSubmit] *)

Lemma submit_prefix_no_user now s :
  truthy user = false ->
  submit_prefix now s = refused s [] (RetNavigate "/login").
Proof.
  intros Hu. unfold submit_prefix, refused, mbind, emit, ret. cbn.
  now rewrite Hu.
Qed.

Lemma submit_prefix_blank now s :
  truthy user = true -> trim (prompt (app s)) = "" ->
  submit_prefix now s = refused s [] RetUndefined.
Proof.
  intros Hu Hp. unfold submit_prefix, refused, mbind, emit, ret. cbn.
  now rewrite Hu, Hp.
Qed.

Lemma submit_prefix_full now s :
  truthy user = true -> trim (prompt (app s)) <> "" ->
  maxMessagesPerSession <= Z.of_nat (List.length (messages (app s))) ->
  submit_prefix now s
  = refused s [Alert "Chat limit reached. Please start a new chat."] RetUndefined.
Proof.
  intros Hu Hp Hlen. unfold submit_prefix, refused, mbind, emit, ret. cbn.
  rewrite Hu. apply String.eqb_neq in Hp. rewrite Hp. cbn.
  assert (Hge : (Z.of_nat (List.length (messages (app s))) >=? maxMessagesPerSession)
                = true) by (apply Z.geb_le; lia).
  rewrite Hge. cbn. now rewrite <- app_assoc.
Qed.

Lemma accepted_inv s :
  accepted s = true ->
  truthy user = true
  /\ trim (prompt (app s)) <> ""
  /\ Z.of_nat (List.length (messages (app s))) < maxMessagesPerSession.
Proof.
  unfold accepted. intros H.
  apply andb_prop in H as [H Hlen]. apply andb_prop in H as [Hu Hp].
  repeat split; [assumption | | now apply Z.ltb_lt].
  apply String.eqb_neq. now apply negb_true_iff.
Qed.

Lemma submit_prefix_accepted now s :
  accepted s = true ->
  submit_prefix now s = (entered now s, Normal (inr (closure_of now s))).
Proof.
  intros H. apply accepted_inv in H as (Hu & Hp & Hlen).
  unfold submit_prefix, entered, closure_of, user_message,
    mbind, emit, ret, setMessages, setPrompt, setIsLoading, update. cbn.
  rewrite Hu. apply String.eqb_neq in Hp. rewrite Hp. cbn.
  assert (Hge : (Z.of_nat (List.length (messages (app s))) >=? maxMessagesPerSession)
                = false).
  { destruct (Z.geb_spec (Z.of_nat (List.length (messages (app s))))
                         maxMessagesPerSession); [lia | reflexivity]. }
  now rewrite Hge.
Qed.

(** A call that is not accepted ends in its prefix: the state is untouched
    and the trace gains no network call. *)
Lemma submit_prefix_not_accepted now s :
  accepted s = false ->
  exists extra v,
    submit_prefix now s = refused s extra v /\ requests extra = [].
Proof.
  intros H. unfold accepted in H.
  destruct (truthy user) eqn:Hu.
  - destruct (String.eqb_spec (trim (prompt (app s))) "") as [Hp | Hp].
    + exists [], RetUndefined. split; [now apply submit_prefix_blank | reflexivity].
    + cbn in H. apply Z.ltb_ge in H.
      exists [Alert "Chat limit reached. Please start a new chat."], RetUndefined.
      split; [now apply submit_prefix_full | reflexivity].
  - exists [], (RetNavigate "/login").
    split; [now apply submit_prefix_no_user | reflexivity].
Qed.

Lemma handleSubmit_refused r s extra v :
  submit_prefix (at_submit r) s = refused s extra v ->
  handleSubmit r s
  = ({| app := app s; trace := (trace s ++ PreventDefault :: extra)%list |}, Normal v).
Proof.
  intros H. unfold handleSubmit, mbind. rewrite H. reflexivity.
Qed.

Lemma pending_store_accepted now s :
  accepted s = true ->
  pending_store now s = Some (exec (request_generation (closure_of now s)) (entered now s)).
Proof.
  intros H. unfold pending_store. now rewrite submit_prefix_accepted.
Qed.

Lemma pending_store_not_accepted now s :
  accepted s = false -> pending_store now s = None.
Proof.
  intros H. destruct (submit_prefix_not_accepted now s H) as (extra & v & E & _).
  unfold pending_store. now rewrite E.
Qed.

(** C8. A call of [handleSubmit] with an absent identity, or with a prompt
    that trims to the empty string, is a no-op: the component state (the
    transcript with it) is unchanged, the trace gains no network call, and
    the call completes at once. *)
Theorem C8_submit_without_identity_or_prompt (r : Round) (s : Store) :
  truthy user = false \/ trim (prompt (app s)) = "" ->
  app (exec (handleSubmit r) s) = app s
  /\ messages (app (exec (handleSubmit r) s)) = messages (app s)
  /\ requests (trace (exec (handleSubmit r) s)) = requests (trace s)
  /\ pending_store (at_submit r) s = None
  /\ exists v, completion (handleSubmit r) s = Normal v.
Proof.
  intros H.
  assert (Hrej : accepted s = false).
  { unfold accepted. destruct H as [Hu | Hp].
    - now rewrite Hu.
    - rewrite Hp. cbn. now rewrite andb_false_r. }
  destruct (submit_prefix_not_accepted (at_submit r) s Hrej) as (extra & v & E & Hreq).
  unfold exec, completion. rewrite (handleSubmit_refused _ _ _ _ E). cbn.
  repeat split; trivial.
  - rewrite requests_app. change (PreventDefault :: extra) with ([PreventDefault] ++ extra)%list.
    rewrite requests_app, Hreq. cbn. now rewrite app_nil_r.
  - now apply pending_store_not_accepted.
  - now exists v.
Qed.

(** C1 (as amended). On a buffer that holds [maxMessagesPerSession] (20)
    user-authored turns, a call of [handleSubmit] is rejected: the component
    state (the transcript with it) is unchanged and the trace gains no
    network call; when the identity is present and the prompt is not blank,
    so that the call gets to the limit guard, the limit notice is shown.  And
    a call is accepted (reaches the generation request) only when the buffer
    length is strictly below [maxMessagesPerSession]. *)
Theorem C1_submit_at_limit_rejected (r : Round) (s : Store) :
  (maxMessagesPerSession <= Z.of_nat (user_turns (messages (app s))) ->
   messages (app (exec (handleSubmit r) s)) = messages (app s)
   /\ app (exec (handleSubmit r) s) = app s
   /\ requests (trace (exec (handleSubmit r) s)) = requests (trace s)
   /\ pending_store (at_submit r) s = None
   /\ (truthy user = true -> trim (prompt (app s)) <> "" ->
       alerts (trace (exec (handleSubmit r) s))
       = (alerts (trace s) ++ ["Chat limit reached. Please start a new chat."])%list))
  /\ (forall p, pending_store (at_submit r) s = Some p ->
      Z.of_nat (List.length (messages (app s))) < maxMessagesPerSession).
Proof.
  split.
  - intros Hturns.
    assert (Hlen : maxMessagesPerSession <= Z.of_nat (List.length (messages (app s)))).
    { pose proof (user_turns_le_length (messages (app s))). lia. }
    assert (Hrej : accepted s = false).
    { unfold accepted. apply andb_false_iff. right. apply Z.ltb_ge. lia. }
    destruct (submit_prefix_not_accepted (at_submit r) s Hrej) as (extra & v & E & Hreq).
    unfold exec. rewrite (handleSubmit_refused _ _ _ _ E). cbn.
    repeat split; trivial.
    + change (PreventDefault :: extra) with ([PreventDefault] ++ extra)%list.
      rewrite !requests_app, Hreq. cbn. now rewrite app_nil_r.
    + now apply pending_store_not_accepted.
    + intros Hu Hp.
      rewrite (submit_prefix_full _ _ Hu Hp Hlen) in E.
      injection E as E _. apply app_inv_head in E. injection E as E. subst extra.
      now rewrite alerts_app.
  - intros p Hp.
    destruct (accepted s) eqn:Hacc.
    + now apply accepted_inv in Hacc.
    + rewrite (pending_store_not_accepted _ _ Hacc) in Hp. discriminate.
Qed.

(** *** The guarded region *)

Lemma handleSubmit_accepted r s :
  accepted s = true ->
  handleSubmit r s
  = (settle (fst (submit_guarded (closure_of (at_submit r) s) r (entered (at_submit r) s)))
            (snd (submit_guarded (closure_of (at_submit r) s) r (entered (at_submit r) s))),
     Normal RetUndefined).
Proof.
  intros H. unfold handleSubmit, mbind. rewrite (submit_prefix_accepted _ _ H).
  unfold try_catch_finally, settle, exec.
  destruct (submit_guarded _ r _) as [s1 [[] | e]]; reflexivity.
Qed.

Lemma settle_app s1 r1 :
  messages (app (settle s1 r1)) = messages (app s1)
  /\ chatSessions (app (settle s1 r1)) = chatSessions (app s1)
  /\ isLoading (app (settle s1 r1)) = false
  /\ requests (trace (settle s1 r1)) = requests (trace s1).
Proof.
  destruct r1 as [[] | e]; cbn; repeat split; trivial.
  rewrite requests_app. cbn. now rewrite app_nil_r.
Qed.

Lemma settle_errors s1 r1 :
  errors (trace (settle s1 r1))
  = (errors (trace s1)
     ++ match r1 with
        | Normal _ => []
        | Throw e => [("Error:", LoggedExn e)]
        end)%list.
Proof.
  destruct r1 as [[] | e]; cbn.
  - now rewrite app_nil_r.
  - now rewrite errors_app.
Qed.

Lemma submit_guarded_transport c r s e :
  generation r = Rejected e ->
  submit_guarded c r s = (exec (request_generation c) s, Throw e).
Proof.
  intros H. unfold submit_guarded, mbind. cbn. now rewrite H.
Qed.

Lemma submit_guarded_decoding c r s response e :
  generation r = Fulfilled response -> json response = Rejected e ->
  submit_guarded c r s = (exec (request_generation c) s, Throw e).
Proof.
  intros H1 H2. unfold submit_guarded, mbind. cbn. rewrite H1. cbn. now rewrite H2.
Qed.

Lemma submit_guarded_data c r s response data :
  generation r = Fulfilled response -> json response = Fulfilled data ->
  submit_guarded c r s = on_data c r data (exec (request_generation c) s).
Proof.
  intros H1 H2. unfold submit_guarded, mbind. cbn. rewrite H1. cbn. now rewrite H2.
Qed.

Lemma has_candidates_nonempty data first rest :
  get_prop data "candidates" = Normal (JArr (first :: rest)) ->
  has_candidates data = Normal true.
Proof.
  intros H. unfold has_candidates. rewrite H. cbn.
  now destruct (List.length rest).
Qed.

Lemma has_candidates_lacking data :
  lacks_candidates data -> has_candidates data = Normal false.
Proof.
  intros (c & H & [Hc | ->]); unfold has_candidates; rewrite H; [ | reflexivity].
  now destruct c.
Qed.

Lemma botReply_of_path data first rest :
  get_prop data "candidates" = Normal (JArr (first :: rest)) ->
  botReply_of data = reply_path first.
Proof.
  intros H. unfold botReply_of. now rewrite H.
Qed.

Lemma nullish_get_prop v k : nullish v = true -> get_prop v k = Throw TypeError.
Proof. now destruct v. Qed.

Lemma reply_path_short first : stops_short first -> reply_path first = Throw TypeError.
Proof.
  unfold reply_path.
  intros [H | c Hc H | c ps Hc Hps H | c ps p Hc Hps Hp H].
  - now rewrite (nullish_get_prop _ _ H).
  - rewrite Hc. cbn. now rewrite (nullish_get_prop _ _ H).
  - rewrite Hc. cbn. rewrite Hps. cbn. now destruct ps.
  - rewrite Hc. cbn. rewrite Hps. cbn. rewrite Hp. cbn.
    now rewrite (nullish_get_prop _ _ H).
Qed.

Lemma on_data_reply c r s data reply :
  carries_reply data reply ->
  on_data c r data s
  = ({| app := {| prompt := prompt (app s);
                  messages := (c_newMessages c ++ [bot_message reply (at_reply r)])%list;
                  chatSessions := chatSessions (app s);
                  isLoading := isLoading (app s) |};
        trace := (trace s ++ [Fetch (SaveChat (c_prompt c) reply)])%list |},
     match persistence r with
     | Fulfilled _ => Normal tt
     | Rejected e => Throw e
     end).
Proof.
  intros (first & rest & Hc & Hp).
  unfold on_data, mbind, lift.
  rewrite (has_candidates_nonempty _ _ _ Hc), (botReply_of_path _ _ _ Hc), Hp. cbn.
  now destruct (persistence r).
Qed.

Lemma on_data_lacking c r s data :
  lacks_candidates data ->
  on_data c r data s
  = (exec (console_error "Unexpected API response:" (LoggedValue data)) s, Normal tt).
Proof.
  intros H. unfold on_data, mbind, lift.
  now rewrite (has_candidates_lacking _ H).
Qed.

Lemma on_data_short c r s data first rest :
  get_prop data "candidates" = Normal (JArr (first :: rest)) ->
  stops_short first ->
  on_data c r data s = (s, Throw TypeError).
Proof.
  intros Hc Hs. unfold on_data, mbind, lift.
  now rewrite (has_candidates_nonempty _ _ _ Hc), (botReply_of_path _ _ _ Hc),
    (reply_path_short _ Hs).
Qed.

(** Whatever the body does with the answer, the transcript it leaves is the
    one of the prefix, alone or followed by one bot message. *)
Lemma submit_guarded_messages c r s :
  let s1 := fst (submit_guarded c r s) in
  messages (app s1) = messages (app s)
  \/ exists reply,
       messages (app s1) = (c_newMessages c ++ [bot_message reply (at_reply r)])%list.
Proof.
  unfold submit_guarded, on_data, mbind, lift. cbn.
  destruct (generation r) as [response | e]; cbn; [ | now left ].
  destruct (json response) as [data | e]; cbn; [ | now left ].
  destruct (has_candidates data) as [[ | ] | e]; cbn; [ | now left | now left ].
  destruct (botReply_of data) as [reply | e]; cbn; [ | now left ].
  right. exists reply. now destruct (persistence r).
Qed.

(** C3. An accepted call of [handleSubmit] completes, and with the loading
    flag false, whatever the generation service answers: a reply, a
    malformed body, or a failure. *)
Theorem C3_loading_flag_cleared (r : Round) (s : Store) :
  accepted s = true ->
  isLoading (app (exec (handleSubmit r) s)) = false
  /\ completion (handleSubmit r) s = Normal RetUndefined.
Proof.
  intros H. unfold exec, completion. rewrite (handleSubmit_accepted _ _ H).
  split; [ apply settle_app | reflexivity ].
Qed.

(** The transcript an accepted call leaves when the generation service
    replies. *)
Lemma handleSubmit_replied_messages (r : Round) (s : Store) (reply : JSValue) :
  accepted s = true ->
  generation_replied r reply ->
  messages (app (exec (handleSubmit r) s))
  = (messages (app s)
     ++ [user_message (prompt (app s)) (at_submit r);
         bot_message reply (at_reply r)])%list.
Proof.
  intros Hacc (response & data & Hgen & Hjson & Hreply).
  unfold exec. rewrite (handleSubmit_accepted _ _ Hacc).
  rewrite (submit_guarded_data _ _ _ _ _ Hgen Hjson).
  rewrite (on_data_reply _ _ _ _ _ Hreply). cbn [fst snd].
  match goal with |- context [settle ?a ?b] =>
    destruct (settle_app a b) as (Hm & _)
  end.
  rewrite Hm. cbn. now rewrite <- app_assoc.
Qed.

(** C4. When an accepted call gets the reply [reply] from the generation
    service, the buffer gains the user message and then the bot message
    with that text, and a persistence call carrying the prompt and the reply
    is issued after the generation call.  Whatever becomes of the
    persistence call, both messages stay and the call of [handleSubmit]
    completes; when the persistence call fails, the failure is logged and
    nothing else happens. *)
Theorem C4_reply_appended_and_saved (r : Round) (s : Store) (reply : JSValue) :
  accepted s = true ->
  generation_replied r reply ->
  let s' := exec (handleSubmit r) s in
  messages (app s')
  = (messages (app s)
     ++ [user_message (prompt (app s)) (at_submit r);
         bot_message reply (at_reply r)])%list
  /\ requests (trace s')
     = (requests (trace s)
        ++ [GenerateContent apiKey (prompt (app s));
            SaveChat (prompt (app s)) reply])%list
  /\ completion (handleSubmit r) s = Normal RetUndefined
  /\ isLoading (app s') = false
  /\ (forall e, persistence r = Rejected e ->
      errors (trace s') = (errors (trace s) ++ [("Error:", LoggedExn e)])%list)
  /\ (forall response, persistence r = Fulfilled response ->
      errors (trace s') = errors (trace s)).
Proof.
  intros Hacc (response & data & Hgen & Hjson & Hreply) s'. subst s'.
  unfold exec, completion. rewrite (handleSubmit_accepted _ _ Hacc).
  rewrite (submit_guarded_data _ _ _ _ _ Hgen Hjson).
  rewrite (on_data_reply _ _ _ _ _ Hreply). cbn [fst snd].
  match goal with |- context [settle ?a ?b] =>
    set (s1 := a); set (r1 := b);
    destruct (settle_app s1 r1) as (Hm & _ & Hl & Hr);
    pose proof (settle_errors s1 r1) as He
  end.
  rewrite Hm, Hl, Hr, He. subst s1 r1.
  unfold request_generation, exec, entered. cbn.
  rewrite !requests_app, !errors_app. cbn. rewrite !app_nil_r, <- !app_assoc. cbn.
  repeat split; trivial.
  - intros e Hp. now rewrite Hp.
  - intros resp Hp. rewrite Hp. now rewrite app_nil_r.
Qed.


Lemma on_data_null c r s data :
  nullish data = true -> on_data c r data s = (s, Throw TypeError).
Proof.
  intros H. unfold on_data, mbind, lift, has_candidates.
  now rewrite (nullish_get_prop _ _ H).
Qed.

(** C5. When the generation call of an accepted submit fails (the transport
    fails, the body does not decode, the body is null, or the response has
    no candidates), no bot message is appended and the user message of the
    acceptance stays; the generation call is the only network call (no
    persistence call); the failure is logged, once, as the entry that goes
    with the failure: the error under ["Error:"], or the response under
    ["Unexpected API response:"]; the loading flag ends false and the call
    completes. *)
Theorem C5_failed_generation (r : Round) (s : Store) (entry : string * Logged) :
  accepted s = true ->
  generation_fails r entry ->
  let s' := exec (handleSubmit r) s in
  messages (app s')
  = (messages (app s) ++ [user_message (prompt (app s)) (at_submit r)])%list
  /\ requests (trace s')
     = (requests (trace s) ++ [GenerateContent apiKey (prompt (app s))])%list
  /\ errors (trace s') = (errors (trace s) ++ [entry])%list
  /\ isLoading (app s') = false
  /\ completion (handleSubmit r) s = Normal RetUndefined.
Proof.
  intros Hacc Hfail s'. subst s'.
  unfold exec, completion. rewrite (handleSubmit_accepted _ _ Hacc).
  assert (Hbody :
    exists s1 r1,
      submit_guarded (closure_of (at_submit r) s) r (entered (at_submit r) s) = (s1, r1)
      /\ messages (app s1) = messages (app (entered (at_submit r) s))
      /\ requests (trace s1)
         = (requests (trace s) ++ [GenerateContent apiKey (prompt (app s))])%list
      /\ errors (trace (settle s1 r1)) = (errors (trace s) ++ [entry])%list).
  { destruct Hfail as [e Hgen | response e Hgen Hjson | response data Hgen Hjson Hnull
                       | response data Hgen Hjson Hlack].
    - rewrite (submit_guarded_transport _ _ _ _ Hgen).
      eexists _, _. split; [reflexivity | ]. rewrite settle_errors.
      unfold request_generation, exec, entered. cbn.
      rewrite !requests_app, !errors_app. cbn. rewrite !app_nil_r. auto.
    - rewrite (submit_guarded_decoding _ _ _ _ _ Hgen Hjson).
      eexists _, _. split; [reflexivity | ]. rewrite settle_errors.
      unfold request_generation, exec, entered. cbn.
      rewrite !requests_app, !errors_app. cbn. rewrite !app_nil_r. auto.
    - rewrite (submit_guarded_data _ _ _ _ _ Hgen Hjson).
      rewrite (on_data_null _ _ _ _ Hnull).
      eexists _, _. split; [reflexivity | ]. rewrite settle_errors.
      unfold request_generation, exec, entered. cbn.
      rewrite !requests_app, !errors_app. cbn. rewrite !app_nil_r. auto.
    - rewrite (submit_guarded_data _ _ _ _ _ Hgen Hjson).
      rewrite (on_data_lacking _ _ _ _ Hlack).
      eexists _, _. split; [reflexivity | ]. rewrite settle_errors.
      unfold request_generation, console_error, exec, entered. cbn.
      rewrite !requests_app, !errors_app. cbn. rewrite !app_nil_r. auto. }
  destruct Hbody as (s1 & r1 & E & Hm & Hr & He). rewrite E. cbn [fst snd].
  destruct (settle_app s1 r1) as (Hm' & _ & Hl & Hr').
  rewrite Hm', Hl, Hr', Hm, Hr, He. cbn.
  repeat split; trivial.
Qed.

(** C10 (as amended). When the candidates of the response are a non-empty
    array whose first candidate stops short of [content.parts[0]] (the
    candidate, its content, the parts or the first part is undefined or
    null), the extraction of the reply throws a TypeError inside the guarded
    region: [handleSubmit] completes normally, the error is logged, no bot
    message is appended, no persistence call is issued, and the loading flag
    is cleared. *)
Theorem C10_extraction_failure_contained
    (r : Round) (s : Store) (response : Response) (data first : JSValue)
    (rest : list JSValue) :
  accepted s = true ->
  generation r = Fulfilled response ->
  json response = Fulfilled data ->
  get_prop data "candidates" = Normal (JArr (first :: rest)) ->
  stops_short first ->
  let s' := exec (handleSubmit r) s in
  completion (handleSubmit r) s = Normal RetUndefined
  /\ messages (app s')
     = (messages (app s) ++ [user_message (prompt (app s)) (at_submit r)])%list
  /\ requests (trace s')
     = (requests (trace s) ++ [GenerateContent apiKey (prompt (app s))])%list
  /\ errors (trace s') = (errors (trace s) ++ [("Error:", LoggedExn TypeError)])%list
  /\ isLoading (app s') = false.
Proof.
  intros Hacc Hgen Hjson Hc Hshort s'. subst s'.
  unfold exec, completion. rewrite (handleSubmit_accepted _ _ Hacc).
  rewrite (submit_guarded_data _ _ _ _ _ Hgen Hjson).
  rewrite (on_data_short _ _ _ _ _ _ Hc Hshort). cbn [fst snd].
  match goal with |- context [settle ?a ?b] =>
    destruct (settle_app a b) as (Hm & _ & Hl & Hr);
    pose proof (settle_errors a b) as He
  end.
  rewrite Hm, Hl, Hr, He.
  unfold request_generation, exec, entered. cbn.
  rewrite !requests_app, !errors_app. cbn. rewrite !app_nil_r.
  repeat split; reflexivity.
Qed.

(** *** History Loader *)

Lemma expand_record h : expand (record_value h) = Normal (spec_expansion h).
Proof. reflexivity. Qed.

Lemma map_res_expand records :
  map_res expand (map record_value records) = Normal (map spec_expansion records).
Proof.
  induction records as [ | h records IH]; [reflexivity | ].
  cbn [map map_res]. rewrite expand_record, IH. reflexivity.
Qed.

Lemma length_flat_map_expansion records :
  List.length (flat_map spec_expansion records) = (2 * List.length records)%nat.
Proof.
  induction records as [ | h records IH]; [reflexivity | ].
  cbn [flat_map spec_expansion List.app List.length]. rewrite IH. lia.
Qed.

(** C7. Given the records the remote history store returns, in their
    order, [fetchChatHistory] replaces the buffer by the concatenation of
    their expansions: for each record the user message with its prompt and
    timestamp, then the bot message with its response and the same
    timestamp; two messages per record, whatever the buffer held before. *)
Theorem C7_history_expansion (records : list HistoryRecord) (s : Store) :
  let answer := Fulfilled {| json := Fulfilled (JArr (map record_value records)) |} in
  let s' := exec (fetchChatHistory answer) s in
  messages (app s') = flat_map spec_expansion records
  /\ List.length (messages (app s')) = (2 * List.length records)%nat
  /\ chatSessions (app s') = chatSessions (app s)
  /\ errors (trace s') = errors (trace s)
  /\ completion (fetchChatHistory answer) s = Normal tt.
Proof.
  intros answer s'. subst answer s'.
  unfold exec, completion, fetchChatHistory, try_catch, try_catch_finally,
    mbind, lift, js_map.
  cbn. rewrite map_res_expand. cbn.
  rewrite <- flat_map_concat_map, length_flat_map_expansion.
  rewrite errors_app. cbn. rewrite app_nil_r.
  repeat split; reflexivity.
Qed.

(** *** Session Manager *)

Lemma findIndex_from_absent {A : Type} (p : A -> bool) l i :
  0 <= i -> findIndex_from p l i = -1 -> forall x, In x l -> p x = false.
Proof.
  revert i. induction l as [ | y l IH]; intros i Hi H x Hx; [contradiction | ].
  cbn in H. destruct (p y) eqn:Hy; [lia | ].
  destruct Hx as [-> | Hx]; [assumption | ].
  apply (IH (i + 1)); [lia | assumption | assumption].
Qed.

Lemma findIndex_absent {A : Type} (p : A -> bool) l :
  findIndex p l = -1 -> forall x, In x l -> p x = false.
Proof. apply findIndex_from_absent. lia. Qed.

(** What [handleNewChat] leaves: the sessions as they were and the buffer
    emptied; or the buffer, which was non-empty and not among the sessions,
    appended to them, and then the buffer emptied when the write succeeds
    and left, with a throw, when it does not. *)
Lemma handleNewChat_cases stored s :
  let s' := exec (handleNewChat stored) s in
  (chatSessions (app s') = chatSessions (app s)
   /\ trace s' = trace s
   /\ messages (app s') = []
   /\ completion (handleNewChat stored) s = Normal tt)
  \/ (chatSessions (app s') = (chatSessions (app s) ++ [messages (app s)])%list
      /\ messages (app s) <> []
      /\ ~ In (messages (app s)) (chatSessions (app s))
      /\ ~ In (serial (messages (app s))) (map serial (chatSessions (app s)))
      /\ ((stored = Normal tt
           /\ messages (app s') = []
           /\ completion (handleNewChat stored) s = Normal tt)
          \/ (exists e, stored = Throw e
                /\ messages (app s') = messages (app s)
                /\ completion (handleNewChat stored) s = Throw e))).
Proof.
  unfold exec, completion, handleNewChat, mbind.
  destruct (messages (app s)) as [ | m ms] eqn:Hms; cbn [List.length Z.of_nat].
  - cbn. left. repeat split.
  - change (0 <? Z.of_nat (S (List.length ms))) with true. cbv iota.
    destruct (findIndex _ (chatSessions (app s)) =? -1) eqn:Hidx.
    + right. apply Z.eqb_eq in Hidx.
      assert (Hstruct : ~ In (m :: ms) (chatSessions (app s))).
      { intros Hin.
        pose proof (findIndex_absent _ _ Hidx _ Hin) as Hsame. cbn in Hsame.
        now rewrite String.eqb_refl in Hsame. }
      assert (Hserial : ~ In (serial (m :: ms)) (map serial (chatSessions (app s)))).
      { intros Hin. apply in_map_iff in Hin as (x & Hx & Hin).
        pose proof (findIndex_absent _ _ Hidx _ Hin) as Hsame. cbn in Hsame.
        unfold serial in Hx. rewrite Hx, String.eqb_refl in Hsame. discriminate. }
      destruct stored as [[] | e]; cbn.
      * split; [reflexivity | split; [discriminate | ]].
        split; [exact Hstruct | split; [exact Hserial | ]].
        left. repeat split.
      * split; [reflexivity | split; [discriminate | ]].
        split; [exact Hstruct | split; [exact Hserial | ]].
        right. exists e. rewrite ?Hms. repeat split.
    + cbn. left. repeat split.
Qed.

(** C6 (as amended). After a call of [handleNewChat] that returns normally,
    as every call whose write to [localStorage] succeeds does, the buffer is
    empty; an archive that held at most one copy of each message sequence
    still does (both for copies as equal sequences and for copies as
    sequences with equal serialisations, which is how the code compares
    them); on an empty buffer nothing is appended to the archive (and
    nothing is written); and two calls in a row leave the archive as one
    call does, with at most one entry more than before.  All this holds
    however the writes of the two calls complete. *)
Theorem C6_new_session_archives_once (stored stored' : Res unit) (s : Store) :
  let s1 := exec (handleNewChat stored) s in
  let s2 := exec (handleNewChat stored') s1 in
  (completion (handleNewChat stored) s = Normal tt -> messages (app s1) = [])
  /\ (stored = Normal tt -> completion (handleNewChat stored) s = Normal tt)
  /\ (NoDup (chatSessions (app s)) -> NoDup (chatSessions (app s1)))
  /\ (NoDup (map serial (chatSessions (app s))) ->
      NoDup (map serial (chatSessions (app s1))))
  /\ (messages (app s) = [] ->
      chatSessions (app s1) = chatSessions (app s) /\ trace s1 = trace s)
  /\ chatSessions (app s2) = chatSessions (app s1)
  /\ (List.length (chatSessions (app s2)) <= List.length (chatSessions (app s)) + 1)%nat.
Proof.
  intros s1 s2.
  pose proof (handleNewChat_cases stored s) as Hc1. cbv zeta in Hc1. fold s1 in Hc1.
  pose proof (handleNewChat_cases stored' s1) as Hc2. cbv zeta in Hc2. fold s2 in Hc2.
  assert (H2 : chatSessions (app s2) = chatSessions (app s1)).
  { destruct Hc2 as [(H & _) | (_ & Hne & _ & Hnew & _)]; [exact H | exfalso].
    destruct Hc1 as [(_ & _ & Hm & _) | (Harch & _ & _ & _ & [(_ & Hm & _) | (e & _ & Hm & _)])].
    - now rewrite Hm in Hne.
    - now rewrite Hm in Hne.
    - apply Hnew. rewrite Hm, Harch, map_app. apply in_or_app. right. now left. }
  split; [ | split; [ | split; [ | split; [ | split; [ | split; [exact H2 | ]]]]]].
  - intros Hdone.
    destruct Hc1 as [(_ & _ & Hm & _) | (_ & _ & _ & _ & [(_ & Hm & _) | (e & _ & _ & Hthrow)])];
      [exact Hm | exact Hm | congruence].
  - intros Hstored.
    destruct Hc1 as [(_ & _ & _ & Hdone) | (_ & _ & _ & _ & [(_ & _ & Hdone) | (e & He & _)])];
      [exact Hdone | exact Hdone | congruence].
  - intros Hnd. destruct Hc1 as [(H & _) | (H & _ & Hnew & _)]; rewrite H; [assumption | ].
    apply NoDup_app; [assumption | repeat constructor; intros [] | ].
    intros a Ha [<- | []]. contradiction.
  - intros Hnd. destruct Hc1 as [(H & _) | (H & _ & _ & Hnew & _)]; rewrite H; [assumption | ].
    rewrite map_app. apply NoDup_app; [assumption | repeat constructor; intros [] | ].
    intros a Ha [<- | []]. contradiction.
  - intros Hempty. destruct Hc1 as [(H & Ht & _) | (_ & Hne & _)]; [now split | contradiction].
  - rewrite H2. destruct Hc1 as [(H & _) | (H & _)]; rewrite H; [lia | ].
    rewrite length_app. cbn. lia.
Qed.

(** *** Sessions *)

(** One submission of a session leaves the transcript alone (it was not
    accepted), or found it below the limit and appended the user message,
    alone or followed by a bot message. *)
Lemma submit_messages sub s :
  let ms := messages (app s) in
  let ms' := messages (app (exec (submit sub) s)) in
  ms' = ms
  \/ (Z.of_nat (List.length ms) < maxMessagesPerSession
      /\ submission_pending sub s <> None
      /\ exists u, isUser u = true
           /\ (ms' = (ms ++ [u])%list
               \/ exists b, isUser b = false /\ ms' = (ms ++ [u; b])%list)).
Proof.
  intros ms ms'. subst ms ms'.
  unfold submit, exec, mbind, submission_pending. cbn [setPrompt update fst snd].
  set (s0 := {| app := _; trace := trace s |}).
  change (messages (app s)) with (messages (app s0)).
  destruct (accepted s0) eqn:Hacc.
  - right. rewrite (handleSubmit_accepted _ _ Hacc). cbn [fst].
    rewrite (pending_store_accepted _ _ Hacc).
    destruct (accepted_inv _ Hacc) as (_ & _ & Hlen).
    split; [assumption | ]. split; [discriminate | ].
    exists (user_message (prompt (app s0)) (at_submit (round sub))).
    split; [reflexivity | ].
    match goal with |- context [settle ?a ?b] =>
      destruct (settle_app a b) as (Hm & _)
    end.
    rewrite Hm.
    destruct (submit_guarded_messages (closure_of (at_submit (round sub)) s0)
                (round sub) (entered (at_submit (round sub)) s0)) as [H | (reply & H)];
      rewrite H.
    + now left.
    + right. exists (bot_message reply (at_reply (round sub))).
      split; [reflexivity | ]. cbn. now rewrite <- app_assoc.
  - left. destruct (submit_prefix_not_accepted (at_submit (round sub)) s0 Hacc)
      as (extra & v & E & _).
    now rewrite (handleSubmit_refused _ _ _ _ E).
Qed.

(** When the generation service replies, an accepted submission appends the
    user message and the bot message. *)
Lemma submit_messages_replied sub s :
  replied sub ->
  let ms := messages (app s) in
  let ms' := messages (app (exec (submit sub) s)) in
  ms' = ms
  \/ (Z.of_nat (List.length ms) < maxMessagesPerSession
      /\ exists u b, isUser u = true /\ isUser b = false
           /\ ms' = (ms ++ [u; b])%list).
Proof.
  intros (reply & Hreply) ms ms'. subst ms ms'.
  unfold submit, exec, mbind. cbn [setPrompt update fst snd].
  set (s0 := {| app := _; trace := trace s |}).
  change (messages (app s)) with (messages (app s0)).
  destruct (accepted s0) eqn:Hacc.
  - right. destruct (accepted_inv _ Hacc) as (_ & _ & Hlen).
    split; [assumption | ].
    pose proof (handleSubmit_replied_messages (round sub) s0 reply Hacc Hreply) as Hm.
    unfold exec in Hm.
    exists (user_message (prompt (app s0)) (at_submit (round sub))),
           (bot_message reply (at_reply (round sub))).
    repeat split. exact Hm.
  - left. destruct (submit_prefix_not_accepted (at_submit (round sub)) s0 Hacc)
      as (extra & v & E & _).
    now rewrite (handleSubmit_refused _ _ _ _ E).
Qed.

Lemma run_session_invariant (P : list Message -> Prop) subs :
  (forall sub s, In sub subs ->
     P (messages (app s)) -> P (messages (app (exec (submit sub) s)))) ->
  forall s, P (messages (app s)) -> P (messages (app (run_session subs s))).
Proof.
  induction subs as [ | sub subs IH]; intros Hstep s Hs; [exact Hs | ].
  cbn [run_session fold_left]. apply IH.
  - intros sub' s' Hin. apply Hstep. now right.
  - apply Hstep; [now left | exact Hs].
Qed.

Lemma submission_pending_messages sub s p :
  submission_pending sub s = Some p ->
  messages (app p)
  = (messages (app s) ++ [user_message (typed sub) (at_submit (round sub))])%list
  /\ Z.of_nat (List.length (messages (app s))) < maxMessagesPerSession.
Proof.
  unfold submission_pending, exec. cbn [setPrompt update fst].
  set (s0 := {| app := _; trace := trace s |}). intros Hp.
  destruct (accepted s0) eqn:Hacc.
  - rewrite (pending_store_accepted _ _ Hacc) in Hp. injection Hp as <-.
    destruct (accepted_inv _ Hacc) as (_ & _ & Hlen). now split.
  - rewrite (pending_store_not_accepted _ _ Hacc) in Hp. discriminate.
Qed.

Lemma even_length_two_more {A : Type} (l : list A) (x y : A) :
  Nat.even (List.length (l ++ [x; y])) = Nat.even (List.length l).
Proof. rewrite length_app, Nat.add_comm. reflexivity. Qed.

Lemma odd_length_one_more {A : Type} (l : list A) (x : A) :
  Nat.odd (List.length (l ++ [x])) = Nat.even (List.length l).
Proof. rewrite length_app, Nat.add_comm. cbn [List.length Nat.add]. apply Nat.odd_succ. Qed.

(** C2 (as amended). Along every sequence of submissions, from a buffer of
    even length within the bound, the buffer length never exceeds
    2 x [maxMessagesPerSession] (40), at rest or while a submission is
    pending; and as long as every generation call so far was answered with
    a reply, the length is even after each reply and odd while a submission
    is pending.  (The statement holds of every sequence, so of every
    prefix of one: of each point of a session.) *)
Theorem C2_length_parity_and_bound (subs : list Submission) (s : Store) :
  Nat.even (List.length (messages (app s))) = true ->
  Z.of_nat (List.length (messages (app s))) <= 2 * maxMessagesPerSession ->
  let s' := run_session subs s in
  (Z.of_nat (List.length (messages (app s'))) <= 2 * maxMessagesPerSession
   /\ forall sub p, submission_pending sub s' = Some p ->
        Z.of_nat (List.length (messages (app p))) <= 2 * maxMessagesPerSession)
  /\ (Forall replied subs ->
      Nat.even (List.length (messages (app s'))) = true
      /\ forall sub p, submission_pending sub s' = Some p ->
           Nat.odd (List.length (messages (app p))) = true).
Proof.
  intros Heven Hbound s'. subst s'. split; [split | ].
  - apply (run_session_invariant
             (fun ms => Z.of_nat (List.length ms) <= 2 * maxMessagesPerSession));
      [ | exact Hbound].
    intros sub s0 _ H0.
    destruct (submit_messages sub s0) as [-> | (Hlen & _ & u & _ & [-> | (b & _ & ->)])];
      [exact H0 | | ]; rewrite length_app; cbn [List.length];
      unfold maxMessagesPerSession in *; lia.
  - intros sub p Hp. apply submission_pending_messages in Hp as (-> & Hlen).
    rewrite length_app. cbn [List.length]. unfold maxMessagesPerSession in *. lia.
  - intros Hall.
    assert (Hrun : Nat.even (List.length (messages (app (run_session subs s)))) = true).
    { apply (run_session_invariant (fun ms => Nat.even (List.length ms) = true));
        [ | exact Heven].
      intros sub s0 Hin H0. rewrite Forall_forall in Hall.
      destruct (submit_messages_replied sub s0 (Hall _ Hin))
        as [-> | (_ & u & b & _ & _ & ->)]; [exact H0 | ].
      now rewrite even_length_two_more. }
    split; [exact Hrun | ].
    intros sub p Hp. apply submission_pending_messages in Hp as (-> & _).
    now rewrite odd_length_one_more.
Qed.

Lemma user_turns_one_more ms u :
  isUser u = true -> user_turns (ms ++ [u]) = S (user_turns ms).
Proof.
  intros Hu. rewrite user_turns_app. unfold user_turns at 2. cbn. rewrite Hu. cbn. lia.
Qed.

Lemma user_turns_pair_more ms u b :
  isUser u = true -> isUser b = false -> user_turns (ms ++ [u; b]) = S (user_turns ms).
Proof.
  intros Hu Hb. rewrite user_turns_app. unfold user_turns at 2. cbn.
  rewrite Hu, Hb. cbn. lia.
Qed.

(** C9 (as amended). The limit check counts messages, of the user and of
    the bot alike: a call is accepted exactly when the identity is present,
    the prompt is not blank and the buffer holds fewer than
    [maxMessagesPerSession] messages.  So an accepted call leaves at most
    [maxMessagesPerSession] + 1 (21) messages; a session that starts empty
    takes at most 10 user turns as long as each accepted turn gets its
    reply, and at most 20 user turns in all. *)
Theorem C9_limit_counts_messages (r : Round) (s : Store) (subs : list Submission) :
  (pending_store (at_submit r) s <> None
   <-> truthy user = true
       /\ trim (prompt (app s)) <> ""
       /\ Z.of_nat (List.length (messages (app s))) < maxMessagesPerSession)
  /\ (pending_store (at_submit r) s <> None ->
      Z.of_nat (List.length (messages (app (exec (handleSubmit r) s))))
      <= maxMessagesPerSession + 1)
  /\ (messages (app s) = [] ->
      (Forall replied subs ->
       (user_turns (messages (app (run_session subs s))) <= 10)%nat)
      /\ (user_turns (messages (app (run_session subs s))) <= 20)%nat).
Proof.
  split; [ | split].
  - split.
    + intros Hp. destruct (accepted s) eqn:Hacc.
      * now apply accepted_inv.
      * now rewrite (pending_store_not_accepted _ _ Hacc) in Hp.
    + intros (Hu & Hp & Hlen).
      assert (Hacc : accepted s = true).
      { unfold accepted. rewrite Hu. apply String.eqb_neq in Hp. rewrite Hp.
        cbn. now apply Z.ltb_lt. }
      rewrite (pending_store_accepted _ _ Hacc). discriminate.
  - intros Hp. destruct (accepted s) eqn:Hacc.
    + destruct (accepted_inv _ Hacc) as (_ & _ & Hlen).
      unfold exec. rewrite (handleSubmit_accepted _ _ Hacc). cbn [fst].
      match goal with |- context [settle ?a ?b] =>
        destruct (settle_app a b) as (Hm & _)
      end.
      rewrite Hm.
      destruct (submit_guarded_messages (closure_of (at_submit r) s) r
                  (entered (at_submit r) s)) as [H | (reply & H)];
        rewrite H; cbn; rewrite !length_app; cbn [List.length];
        unfold maxMessagesPerSession in *; lia.
    + now rewrite (pending_store_not_accepted _ _ Hacc) in Hp.
  - intros Hempty. split.
    + intros Hall.
      assert (Hinv :
        (fun ms => List.length ms = (2 * user_turns ms)%nat
                   /\ Z.of_nat (List.length ms) <= maxMessagesPerSession)
          (messages (app (run_session subs s)))).
      { apply run_session_invariant.
        - intros sub s0 Hin (Hdouble & Hle). rewrite Forall_forall in Hall.
          destruct (submit_messages_replied sub s0 (Hall _ Hin))
            as [-> | (Hlen & u & b & Hu & Hb & ->)]; [now split | ].
          rewrite (user_turns_pair_more _ _ _ Hu Hb), length_app. cbn [List.length].
          unfold maxMessagesPerSession in *. lia.
        - rewrite Hempty. cbn. unfold maxMessagesPerSession. lia. }
      cbv beta in Hinv. unfold maxMessagesPerSession in Hinv. lia.
    + apply (run_session_invariant (fun ms => (user_turns ms <= 20)%nat)).
      * intros sub s0 _ H0.
        destruct (submit_messages sub s0)
          as [-> | (Hlen & _ & u & Hu & [-> | (b & Hb & ->)])]; [exact H0 | | ].
        -- rewrite (user_turns_one_more _ _ Hu).
           pose proof (user_turns_le_length (messages (app s0))).
           unfold maxMessagesPerSession in *. lia.
        -- rewrite (user_turns_pair_more _ _ _ Hu Hb).
           pose proof (user_turns_le_length (messages (app s0))).
           unfold maxMessagesPerSession in *. lia.
      * rewrite Hempty. cbn. lia.
Qed.

(** ** Further properties *)

(** *** History Loader: every answer *)

Lemma writes_app t1 t2 : writes (t1 ++ t2) = (writes t1 ++ writes t2)%list.
Proof. unfold writes. now rewrite flat_map_app. Qed.

Lemma saves_app t1 t2 : saves (t1 ++ t2) = (saves t1 ++ saves t2)%list.
Proof. unfold saves. now rewrite flat_map_app. Qed.

Lemma expand_nullish chat : nullish chat = true -> expand chat = Throw TypeError.
Proof. now destruct chat. Qed.

Lemma expand_loose chat :
  nullish chat = false -> expand chat = Normal (loose_expansion chat).
Proof.
  unfold expand, loose_expansion, field.
  destruct chat; cbn; intros H; try discriminate H; reflexivity.
Qed.

Lemma map_res_expand_loose items :
  Forall (fun chat => nullish chat = false) items ->
  map_res expand items = Normal (map loose_expansion items).
Proof.
  induction 1 as [ | chat items Hchat _ IH]; [reflexivity | ].
  cbn [map map_res]. rewrite (expand_loose _ Hchat), IH. reflexivity.
Qed.

Lemma map_res_expand_hole items :
  Exists (fun chat => nullish chat = true) items ->
  map_res expand items = Throw TypeError.
Proof.
  induction items as [ | chat items IH]; intros H; [inversion H | ].
  cbn [map_res]. destruct (nullish chat) eqn:Hchat.
  - now rewrite (expand_nullish _ Hchat).
  - rewrite (expand_loose _ Hchat). cbn.
    inversion H as [? ? Hhead | ? ? Htail]; subst; [congruence | ].
    now rewrite (IH Htail).
Qed.

Lemma js_map_not_array {B : Type} (f : JSValue -> Res B) data :
  (forall items, data <> JArr items) -> js_map f data = Throw TypeError.
Proof.
  intros H. destruct data; try reflexivity. now destruct (H items).
Qed.

(** What [fetchChatHistory] leaves, by what the mapping of the body gives. *)
Lemma fetchChatHistory_data response data s :
  json response = Fulfilled data ->
  fetchChatHistory (Fulfilled response) s
  = match js_map expand data with
    | Normal history =>
        ({| app := {| prompt := prompt (app s);
                      messages := List.concat history;
                      chatSessions := chatSessions (app s);
                      isLoading := isLoading (app s) |};
            trace := (trace s ++ [Fetch GetHistory])%list |}, Normal tt)
    | Throw e =>
        ({| app := app s;
            trace := (trace s ++ [Fetch GetHistory;
                                  ConsoleError "Error fetching chat history:"
                                    (LoggedExn e)])%list |}, Normal tt)
    end.
Proof.
  intros Hjson.
  unfold fetchChatHistory, try_catch, try_catch_finally, mbind, lift. cbn.
  rewrite Hjson. cbn.
  destruct (js_map expand data) as [history | e]; cbn; [reflexivity | ].
  now rewrite <- app_assoc.
Qed.

Lemma fetchChatHistory_rejected e s :
  fetchChatHistory (Rejected e) s
  = ({| app := app s;
        trace := (trace s ++ [Fetch GetHistory;
                              ConsoleError "Error fetching chat history:"
                                (LoggedExn e)])%list |}, Normal tt).
Proof.
  unfold fetchChatHistory, try_catch, try_catch_finally, mbind. cbn.
  now rewrite <- app_assoc.
Qed.

Lemma fetchChatHistory_undecoded response e s :
  json response = Rejected e ->
  fetchChatHistory (Fulfilled response) s
  = ({| app := app s;
        trace := (trace s ++ [Fetch GetHistory;
                              ConsoleError "Error fetching chat history:"
                                (LoggedExn e)])%list |}, Normal tt).
Proof.
  intros Hjson.
  unfold fetchChatHistory, try_catch, try_catch_finally, mbind. cbn.
  rewrite Hjson. cbn. now rewrite <- app_assoc.
Qed.

(** X1. The history load is all or nothing.  When the history request
    fails, its body does not decode, the body is not an array, or one element
    of the array is null, [fetchChatHistory] leaves the whole component state
    (the buffer with it) as it was, writes one error, labelled as a history
    error, to the console, and completes normally; the one network call is
    the history request. *)
Theorem X1_history_failure_leaves_state (answer : Settled Response) (s : Store) :
  history_unusable answer ->
  app (exec (fetchChatHistory answer) s) = app s
  /\ requests (trace (exec (fetchChatHistory answer) s))
     = (requests (trace s) ++ [GetHistory])%list
  /\ (exists e, errors (trace (exec (fetchChatHistory answer) s))
               = (errors (trace s)
                  ++ [("Error fetching chat history:", LoggedExn e)])%list)
  /\ completion (fetchChatHistory answer) s = Normal tt.
Proof.
  intros Hbad.
  assert (Hout : exists e,
    fetchChatHistory answer s
    = ({| app := app s;
          trace := (trace s ++ [Fetch GetHistory;
                                ConsoleError "Error fetching chat history:"
                                  (LoggedExn e)])%list |}, Normal tt)).
  { destruct Hbad as [e -> | response e -> Hjson | response data -> Hjson Hshape
                      | response items -> Hjson Hhole].
    - exists e. apply fetchChatHistory_rejected.
    - exists e. now apply fetchChatHistory_undecoded.
    - exists TypeError. rewrite (fetchChatHistory_data _ _ _ Hjson).
      now rewrite (js_map_not_array _ _ Hshape).
    - exists TypeError. rewrite (fetchChatHistory_data _ _ _ Hjson).
      cbn [js_map]. now rewrite (map_res_expand_hole _ Hhole). }
  destruct Hout as (e & Hout). unfold exec, completion. rewrite Hout. cbn.
  rewrite requests_app, errors_app. cbn.
  repeat split; trivial. now exists e.
Qed.

Lemma length_flat_map_loose items :
  List.length (flat_map loose_expansion items) = (2 * List.length items)%nat.
Proof.
  induction items as [ | chat items IH]; [reflexivity | ].
  cbn [flat_map loose_expansion List.app List.length]. rewrite IH. lia.
Qed.

Lemma user_turns_flat_map_loose items :
  user_turns (flat_map loose_expansion items) = List.length items.
Proof.
  induction items as [ | chat items IH]; [reflexivity | ].
  cbn [flat_map]. rewrite user_turns_app, IH. reflexivity.
Qed.

(** X2. Every element of the history array that is not null yields two
    messages, whatever it holds: a property the element lacks becomes
    [undefined] in the message, and the load does not fail.  The buffer is
    replaced by the expansions in order; it holds twice as many messages as
    the array has elements, half of them user turns, and nothing is logged. *)
Theorem X2_history_any_elements (items : list JSValue) (s : Store) :
  Forall (fun chat => nullish chat = false) items ->
  let s' := exec (fetchChatHistory (Fulfilled {| json := Fulfilled (JArr items) |})) s in
  messages (app s') = flat_map loose_expansion items
  /\ List.length (messages (app s')) = (2 * List.length items)%nat
  /\ user_turns (messages (app s')) = List.length items
  /\ errors (trace s') = errors (trace s).
Proof.
  intros Hitems s'. subst s'. unfold exec.
  rewrite (fetchChatHistory_data {| json := Fulfilled (JArr items) |} (JArr items) s eq_refl).
  cbn [js_map]. rewrite (map_res_expand_loose _ Hitems).
  cbn [fst app messages trace].
  rewrite <- flat_map_concat_map, errors_app, length_flat_map_loose,
    user_turns_flat_map_loose.
  cbn. rewrite app_nil_r. repeat split; reflexivity.
Qed.

(** X3. Whatever the history store answers, the history effect completes
    normally and touches nothing but the buffer: the typed prompt, the
    archive and the loading flag are as before, nothing is written to
    [localStorage] and no notice is shown.  It issues the history request
    when the user is present and no request at all when the user is absent,
    and it logs at most one error. *)
Theorem X3_history_effect_contained (answer : Settled Response) (s : Store) :
  let s' := exec (history_effect answer) s in
  completion (history_effect answer) s = Normal tt
  /\ prompt (app s') = prompt (app s)
  /\ chatSessions (app s') = chatSessions (app s)
  /\ isLoading (app s') = isLoading (app s)
  /\ writes (trace s') = writes (trace s)
  /\ alerts (trace s') = alerts (trace s)
  /\ requests (trace s')
     = (requests (trace s) ++ if truthy user then [GetHistory] else [])%list
  /\ (truthy user = false -> s' = s)
  /\ exists logged, errors (trace s') = (errors (trace s) ++ logged)%list
                    /\ (List.length logged <= 1)%nat.
Proof.
  intros s'. subst s'. unfold history_effect, exec, completion.
  destruct (truthy user); cbn [negb].
  - assert (Hout :
      (exists history,
         fetchChatHistory answer s
         = ({| app := {| prompt := prompt (app s);
                         messages := history;
                         chatSessions := chatSessions (app s);
                         isLoading := isLoading (app s) |};
               trace := (trace s ++ [Fetch GetHistory])%list |}, Normal tt))
      \/ (exists e,
         fetchChatHistory answer s
         = ({| app := app s;
               trace := (trace s ++ [Fetch GetHistory;
                                     ConsoleError "Error fetching chat history:"
                                       (LoggedExn e)])%list |}, Normal tt))).
    { destruct answer as [response | e].
      - destruct (json response) as [data | e] eqn:Hjson.
        + rewrite (fetchChatHistory_data _ _ _ Hjson).
          destruct (js_map expand data) as [history | e]; eauto.
        + right. exists e. now apply fetchChatHistory_undecoded.
      - right. exists e. apply fetchChatHistory_rejected. }
    destruct Hout as [(history & ->) | (e & ->)]; cbn;
      rewrite writes_app, alerts_app, requests_app, errors_app; cbn;
      rewrite ?app_nil_r; repeat split; trivial; try discriminate.
    + exists []. rewrite app_nil_r. split; [reflexivity | cbn; lia].
    + eexists. split; [reflexivity | cbn; lia].
  - cbn. rewrite app_nil_r. repeat split; trivial.
    exists []. rewrite app_nil_r. split; [reflexivity | cbn; lia].
Qed.

(** *** Exchange Orchestrator: every call *)

(** How the body of the [try] can end: with the bot message set and the save
    call issued; with a throw before either; or with the response logged as
    unexpected. *)
Lemma submit_guarded_outcome c r s :
  (exists reply,
     submit_guarded c r s
     = ({| app := {| prompt := prompt (app s);
                     messages := (c_newMessages c ++ [bot_message reply (at_reply r)])%list;
                     chatSessions := chatSessions (app s);
                     isLoading := isLoading (app s) |};
           trace := (trace s ++ [Fetch (GenerateContent apiKey (c_prompt c));
                                 Fetch (SaveChat (c_prompt c) reply)])%list |},
        match persistence r with
        | Fulfilled _ => Normal tt
        | Rejected e => Throw e
        end))
  \/ (exists e,
     submit_guarded c r s
     = ({| app := app s;
           trace := (trace s ++ [Fetch (GenerateContent apiKey (c_prompt c))])%list |},
        Throw e))
  \/ (exists data,
     submit_guarded c r s
     = ({| app := app s;
           trace := (trace s ++ [Fetch (GenerateContent apiKey (c_prompt c));
                                 ConsoleError "Unexpected API response:"
                                   (LoggedValue data)])%list |},
        Normal tt)).
Proof.
  unfold submit_guarded, on_data, request_generation, mbind, lift. cbn.
  destruct (generation r) as [response | e]; cbn; [ | right; left; now exists e].
  destruct (json response) as [data | e]; cbn; [ | right; left; now exists e].
  destruct (has_candidates data) as [[ | ] | e]; cbn.
  - destruct (botReply_of data) as [reply | e]; cbn; [ | right; left; now exists e].
    left. exists reply. rewrite <- app_assoc. now destruct (persistence r).
  - right. right. exists data. unfold console_error, emit. cbn. now rewrite <- app_assoc.
  - right. left. now exists e.
Qed.

(** X4. A call of [handleSubmit] only ever appends to the buffer: for every
    store and every outcome of the two remote calls, the messages that were
    in the buffer are still there, in place, followed by at most two new
    ones.  The call issues at most two network calls, leaves the archive
    alone, writes nothing to [localStorage], and never throws to the form. *)
Theorem X4_submit_only_appends (r : Round) (s : Store) :
  let s' := exec (handleSubmit r) s in
  (exists added,
     messages (app s') = (messages (app s) ++ added)%list
     /\ (List.length added <= 2)%nat)
  /\ (exists issued,
       requests (trace s') = (requests (trace s) ++ issued)%list
       /\ (List.length issued <= 2)%nat)
  /\ chatSessions (app s') = chatSessions (app s)
  /\ writes (trace s') = writes (trace s)
  /\ exists v, completion (handleSubmit r) s = Normal v.
Proof.
  intros s'. subst s'. unfold exec, completion.
  destruct (accepted s) eqn:Hacc.
  - rewrite (handleSubmit_accepted _ _ Hacc). cbn [fst snd].
    destruct (submit_guarded_outcome (closure_of (at_submit r) s) r (entered (at_submit r) s))
      as [(reply & ->) | [(e & ->) | (data & ->)]]; cbn [fst snd].
    + split; [ | split; [ | split; [ | split]]].
      * exists [user_message (prompt (app s)) (at_submit r); bot_message reply (at_reply r)].
        split; [ | cbn; lia].
        destruct (persistence r); cbn; now rewrite <- app_assoc.
      * exists [GenerateContent apiKey (prompt (app s)); SaveChat (prompt (app s)) reply].
        split; [ | cbn; lia].
        destruct (persistence r); cbn; rewrite !requests_app; cbn;
          now rewrite ?app_nil_r.
      * now destruct (persistence r).
      * destruct (persistence r); cbn; rewrite !writes_app; cbn;
          now rewrite ?app_nil_r.
      * now exists RetUndefined.
    + cbn. rewrite !requests_app, !writes_app. cbn. rewrite !app_nil_r.
      split; [ | split; [ | split; [ | split]]]; trivial.
      * exists [user_message (prompt (app s)) (at_submit r)]. split; [reflexivity | cbn; lia].
      * exists [GenerateContent apiKey (prompt (app s))]. split; [reflexivity | cbn; lia].
      * now exists RetUndefined.
    + cbn. rewrite !requests_app, !writes_app. cbn. rewrite !app_nil_r.
      split; [ | split; [ | split; [ | split]]]; trivial.
      * exists [user_message (prompt (app s)) (at_submit r)]. split; [reflexivity | cbn; lia].
      * exists [GenerateContent apiKey (prompt (app s))]. split; [reflexivity | cbn; lia].
      * now exists RetUndefined.
  - destruct (submit_prefix_not_accepted (at_submit r) s Hacc) as (extra & v & E & Hreq).
    rewrite (handleSubmit_refused _ _ _ _ E). cbn.
    assert (Hw : writes (PreventDefault :: extra) = []).
    { destruct (truthy user) eqn:Hu.
      - destruct (String.eqb_spec (trim (prompt (app s))) "") as [Hp | Hp].
        + rewrite (submit_prefix_blank _ _ Hu Hp) in E. injection E as E _.
          apply app_inv_head in E. now rewrite <- E.
        + unfold accepted in Hacc. rewrite Hu in Hacc.
          apply String.eqb_neq in Hp. rewrite Hp in Hacc. cbn in Hacc.
          apply Z.ltb_ge in Hacc. apply String.eqb_neq in Hp.
          rewrite (submit_prefix_full _ _ Hu Hp Hacc) in E. injection E as E _.
          apply app_inv_head in E. now rewrite <- E.
      - rewrite (submit_prefix_no_user _ _ Hu) in E. injection E as E _.
        apply app_inv_head in E. now rewrite <- E. }
    change (PreventDefault :: extra) with ([PreventDefault] ++ extra)%list in *.
    rewrite !requests_app, Hreq, !writes_app. rewrite writes_app in Hw.
    cbn in *. rewrite Hw, !app_nil_r.
    split; [ | split; [ | split; [ | split]]]; trivial.
    + exists []. rewrite app_nil_r. split; [reflexivity | cbn; lia].
    + exists []. rewrite app_nil_r. split; [reflexivity | cbn; lia].
    + now exists v.
Qed.

(** X5. An accepted call never fails silently.  Either the bot message is
    appended and the save call for that very reply is issued, or no bot
    message is appended, no save call is issued and exactly one error is
    written to the console; in both cases the loading flag ends false. *)
Theorem X5_submit_reply_or_error (r : Round) (s : Store) :
  accepted s = true ->
  let s' := exec (handleSubmit r) s in
  isLoading (app s') = false
  /\ ((exists reply,
        messages (app s')
        = (messages (app s)
           ++ [user_message (prompt (app s)) (at_submit r);
               bot_message reply (at_reply r)])%list
        /\ requests (trace s')
           = (requests (trace s)
              ++ [GenerateContent apiKey (prompt (app s));
                  SaveChat (prompt (app s)) reply])%list)
      \/ (messages (app s')
          = (messages (app s) ++ [user_message (prompt (app s)) (at_submit r)])%list
          /\ requests (trace s')
             = (requests (trace s) ++ [GenerateContent apiKey (prompt (app s))])%list
          /\ exists entry, errors (trace s') = (errors (trace s) ++ [entry])%list)).
Proof.
  intros Hacc s'. subst s'. unfold exec.
  rewrite (handleSubmit_accepted _ _ Hacc). cbn [fst].
  destruct (submit_guarded_outcome (closure_of (at_submit r) s) r (entered (at_submit r) s))
    as [(reply & ->) | [(e & ->) | (data & ->)]]; cbn [fst snd].
  - split; [now destruct (persistence r) | ].
    left. exists reply.
    destruct (persistence r); cbn; rewrite !requests_app; cbn;
      rewrite ?app_nil_r, <- !app_assoc; split; reflexivity.
  - split; [reflexivity | ]. right. cbn.
    rewrite !requests_app, !errors_app. cbn. rewrite !app_nil_r.
    repeat split. now eexists.
  - split; [reflexivity | ]. right. cbn.
    rewrite !requests_app, !errors_app. cbn. rewrite !app_nil_r.
    repeat split. now eexists.
Qed.

Lemma handleSubmit_accepted_prompt r s :
  accepted s = true -> prompt (app (exec (handleSubmit r) s)) = "".
Proof.
  intros Hacc. unfold exec. rewrite (handleSubmit_accepted _ _ Hacc). cbn [fst].
  destruct (submit_guarded_outcome (closure_of (at_submit r) s) r (entered (at_submit r) s))
    as [(reply & ->) | [(e & ->) | (data & ->)]]; cbn [fst snd];
    try reflexivity.
  now destruct (persistence r).
Qed.

Lemma handleSubmit_not_accepted r s :
  accepted s = false ->
  app (exec (handleSubmit r) s) = app s
  /\ requests (trace (exec (handleSubmit r) s)) = requests (trace s).
Proof.
  intros Hacc.
  destruct (submit_prefix_not_accepted (at_submit r) s Hacc) as (extra & v & E & Hreq).
  unfold exec. rewrite (handleSubmit_refused _ _ _ _ E). cbn.
  change (PreventDefault :: extra) with ([PreventDefault] ++ extra)%list.
  rewrite !requests_app, Hreq. cbn. now rewrite app_nil_r.
Qed.

(** X6. An accepted call empties the input, so submitting again without
    typing does nothing: after an accepted call the prompt is the empty
    string, and a further call of [handleSubmit], whatever it would meet,
    leaves the component state as it is and issues no network call. *)
Theorem X6_resubmission_does_nothing (r r' : Round) (s : Store) :
  accepted s = true ->
  let s1 := exec (handleSubmit r) s in
  prompt (app s1) = ""
  /\ app (exec (handleSubmit r') s1) = app s1
  /\ requests (trace (exec (handleSubmit r') s1)) = requests (trace s1).
Proof.
  intros Hacc s1.
  assert (Hp : prompt (app s1) = "") by now apply handleSubmit_accepted_prompt.
  split; [exact Hp | ].
  apply handleSubmit_not_accepted.
  unfold accepted. rewrite Hp. cbn. now rewrite andb_false_r.
Qed.

Lemma trimStart_all_white s : all_white_space s = true -> trimStart s = "".
Proof.
  induction s as [ | c s IH]; [reflexivity | ]. cbn.
  intros H. apply andb_prop in H as [Hc Hs]. rewrite Hc. now apply IH.
Qed.

Lemma trimStart_some_black s :
  all_white_space s = false ->
  exists c rest, trimStart s = String c rest /\ is_white_space c = false.
Proof.
  induction s as [ | c s IH]; [discriminate | ]. cbn.
  destruct (is_white_space c) eqn:Hc; cbn.
  - exact IH.
  - intros _. now exists c, s.
Qed.

Lemma trimEnd_black_head c rest :
  is_white_space c = false -> trimEnd (String c rest) <> "".
Proof.
  intros Hc. cbn. destruct (trimEnd rest); [rewrite Hc | ]; discriminate.
Qed.

Lemma trim_empty_iff s : trim s = "" <-> all_white_space s = true.
Proof.
  unfold trim. split.
  - intros H. destruct (all_white_space s) eqn:Hs; [reflexivity | ].
    destruct (trimStart_some_black _ Hs) as (c & rest & E & Hc).
    rewrite E in H. now destruct (trimEnd_black_head c rest Hc).
  - intros H. now rewrite (trimStart_all_white _ H).
Qed.

(** X7. Whether a prompt counts as empty is decided character by character.
    A prompt made of white space only (the empty prompt included) is refused:
    the component state is unchanged and no network call is issued.  With
    the user present and the buffer below the limit, a prompt with at least
    one other character is accepted, and it is stored and sent as typed, not
    trimmed. *)
Theorem X7_white_space_prompt (r : Round) (s : Store) :
  (all_white_space (prompt (app s)) = true ->
   app (exec (handleSubmit r) s) = app s
   /\ requests (trace (exec (handleSubmit r) s)) = requests (trace s))
  /\ (all_white_space (prompt (app s)) = false ->
      truthy user = true ->
      Z.of_nat (List.length (messages (app s))) < maxMessagesPerSession ->
      exists p,
        pending_store (at_submit r) s = Some p
        /\ messages (app p)
           = (messages (app s) ++ [user_message (prompt (app s)) (at_submit r)])%list
        /\ requests (trace p)
           = (requests (trace s) ++ [GenerateContent apiKey (prompt (app s))])%list).
Proof.
  split.
  - intros Hws. apply handleSubmit_not_accepted.
    unfold accepted. apply trim_empty_iff in Hws. rewrite Hws. cbn.
    now rewrite andb_false_r.
  - intros Hblack Hu Hlen.
    assert (Hacc : accepted s = true).
    { unfold accepted. rewrite Hu.
      destruct (String.eqb_spec (trim (prompt (app s))) "") as [Hp | Hp].
      - apply trim_empty_iff in Hp. congruence.
      - cbn. now apply Z.ltb_lt. }
    rewrite (pending_store_accepted _ _ Hacc). eexists. split; [reflexivity | ].
    unfold request_generation, exec, entered. cbn.
    rewrite !requests_app. cbn. now rewrite app_nil_r.
Qed.

(** *** Session Manager: when it archives, and what it writes *)

Lemma findIndex_from_all_false {A : Type} (p : A -> bool) l i :
  (forall x, In x l -> p x = false) -> findIndex_from p l i = -1.
Proof.
  revert i. induction l as [ | y l IH]; intros i H; [reflexivity | ].
  cbn. rewrite (H y (or_introl eq_refl)). apply IH.
  intros x Hx. apply H. now right.
Qed.

Lemma findIndex_from_found {A : Type} (p : A -> bool) l i x :
  0 <= i -> In x l -> p x = true -> findIndex_from p l i <> -1.
Proof.
  revert i. induction l as [ | y l IH]; intros i Hi Hin Hx; [contradiction | ].
  cbn. destruct (p y) eqn:Hy; [lia | ].
  destruct Hin as [-> | Hin]; [congruence | ].
  apply IH; [lia | assumption | assumption].
Qed.

Lemma findIndex_present {A : Type} (p : A -> bool) l :
  findIndex p l <> -1 -> exists x, In x l /\ p x = true.
Proof.
  intros H. destruct (existsb p l) eqn:E.
  - apply existsb_exists in E. exact E.
  - destruct H. apply findIndex_from_all_false. intros x Hx.
    destruct (p x) eqn:Hp; [ | reflexivity].
    assert (existsb p l = true) by (apply existsb_exists; eauto). congruence.
Qed.

Lemma handleNewChat_appends stored s :
  messages (app s) <> [] ->
  (forall session, In session (chatSessions (app s)) ->
     serial session <> serial (messages (app s))) ->
  handleNewChat stored s
  = match stored with
    | Normal _ =>
        ({| app := {| prompt := prompt (app s);
                      messages := [];
                      chatSessions := (chatSessions (app s) ++ [messages (app s)])%list;
                      isLoading := isLoading (app s) |};
            trace := (trace s
                      ++ [LocalStorageSetItem "chatSessions"
                            (archive_text (chatSessions (app s) ++ [messages (app s)]))])%list |},
         Normal tt)
    | Throw e =>
        ({| app := {| prompt := prompt (app s);
                      messages := messages (app s);
                      chatSessions := (chatSessions (app s) ++ [messages (app s)])%list;
                      isLoading := isLoading (app s) |};
            trace := trace s |},
         Throw e)
    end.
Proof.
  intros Hne Hnew. unfold handleNewChat, mbind.
  destruct (messages (app s)) as [ | m ms] eqn:Hms; [contradiction | ].
  change (0 <? Z.of_nat (List.length (m :: ms))) with true. cbv iota.
  unfold findIndex. rewrite findIndex_from_all_false.
  - destruct stored as [[] | e]; cbn; rewrite ?Hms; reflexivity.
  - intros session Hin. apply String.eqb_neq. now apply Hnew.
Qed.

Lemma handleNewChat_keeps stored s :
  messages (app s) = []
  \/ (exists session, In session (chatSessions (app s))
                      /\ serial session = serial (messages (app s))) ->
  handleNewChat stored s
  = ({| app := {| prompt := prompt (app s);
                  messages := [];
                  chatSessions := chatSessions (app s);
                  isLoading := isLoading (app s) |};
        trace := trace s |},
     Normal tt).
Proof.
  intros H. unfold handleNewChat, mbind.
  destruct (messages (app s)) as [ | m ms] eqn:Hms; [reflexivity | ].
  destruct H as [H | (session & Hin & Hsame)]; [discriminate | ].
  change (0 <? Z.of_nat (List.length (m :: ms))) with true. cbv iota.
  destruct (Z.eqb_spec
              (findIndex (fun session0 =>
                            String.eqb (JSON_stringify (session_value session0))
                                       (JSON_stringify (session_value (m :: ms))))
                         (chatSessions (app s))) (-1)) as [Hidx | Hidx];
    [ | reflexivity].
  exfalso. revert Hidx. apply (findIndex_from_found _ _ 0 session); [lia | exact Hin | ].
  apply String.eqb_eq. exact Hsame.
Qed.

(** The three ways a call of [handleNewChat] can find the component. *)
Lemma handleNewChat_situation s :
  messages (app s) = []
  \/ (messages (app s) <> []
      /\ forall session, In session (chatSessions (app s)) ->
           serial session <> serial (messages (app s)))
  \/ (messages (app s) <> []
      /\ exists session, In session (chatSessions (app s))
                         /\ serial session = serial (messages (app s))).
Proof.
  destruct (messages (app s)) as [ | m ms] eqn:Hms; [now left | right].
  destruct (existsb (fun session => String.eqb (serial session) (serial (m :: ms)))
                    (chatSessions (app s))) eqn:E.
  - right. split; [discriminate | ].
    apply existsb_exists in E as (session & Hin & Hsame).
    exists session. split; [exact Hin | now apply String.eqb_eq].
  - left. split; [discriminate | ].
    intros session Hin Hsame.
    assert (existsb (fun session => String.eqb (serial session) (serial (m :: ms)))
                    (chatSessions (app s)) = true).
    { apply existsb_exists. exists session. split; [exact Hin | now apply String.eqb_eq]. }
    congruence.
Qed.

Lemma persisted_write t v :
  persisted (t ++ [LocalStorageSetItem "chatSessions" v]) = Some v.
Proof.
  unfold persisted. rewrite writes_app, fold_left_app. reflexivity.
Qed.

(** X8. [handleNewChat] archives the buffer exactly when it is non-empty and
    its serialisation differs from that of every archived session; the
    session then goes to the end of the archive, however the write to
    [localStorage] completes.  When the write succeeds, the whole new archive
    is stored under ["chatSessions"], once, the buffer is emptied and the
    call returns; when the write throws, nothing is stored, the buffer is
    left as it was and the call throws what the write threw.  When nothing is
    archived, the archive and the trace are as before and the buffer is
    emptied.  In every case the typed prompt and the loading flag are
    untouched, and no network call or notice is made. *)
Theorem X8_new_chat_archives_new_transcripts (stored : Res unit) (s : Store) :
  let s' := exec (handleNewChat stored) s in
  prompt (app s') = prompt (app s)
  /\ isLoading (app s') = isLoading (app s)
  /\ requests (trace s') = requests (trace s)
  /\ alerts (trace s') = alerts (trace s)
  /\ (messages (app s) <> [] ->
      (forall session, In session (chatSessions (app s)) ->
         serial session <> serial (messages (app s))) ->
      chatSessions (app s') = (chatSessions (app s) ++ [messages (app s)])%list
      /\ (stored = Normal tt ->
          messages (app s') = []
          /\ writes (trace s')
             = (writes (trace s)
                ++ [("chatSessions", archive_text (chatSessions (app s')))])%list
          /\ persisted (trace s') = Some (archive_text (chatSessions (app s')))
          /\ completion (handleNewChat stored) s = Normal tt)
      /\ (forall e, stored = Throw e ->
            messages (app s') = messages (app s)
            /\ trace s' = trace s
            /\ completion (handleNewChat stored) s = Throw e))
  /\ (messages (app s) = []
      \/ (exists session, In session (chatSessions (app s))
                          /\ serial session = serial (messages (app s))) ->
      chatSessions (app s') = chatSessions (app s)
      /\ trace s' = trace s
      /\ messages (app s') = []
      /\ completion (handleNewChat stored) s = Normal tt).
Proof.
  intros s'. subst s'. unfold exec, completion.
  destruct (handleNewChat_situation s) as [Hempty | [(Hne & Hnew) | (Hne & Hold)]].
  - rewrite (handleNewChat_keeps stored s (or_introl Hempty)).
    cbn [fst snd app trace prompt isLoading chatSessions messages].
    do 4 (split; [reflexivity | ]). split.
    + intros Hne. contradiction.
    + intros _. repeat split.
  - rewrite (handleNewChat_appends stored s Hne Hnew).
    destruct stored as [[] | e];
      cbn [fst snd app trace prompt isLoading chatSessions messages].
    + rewrite requests_app, alerts_app, writes_app, persisted_write. cbn.
      rewrite !app_nil_r.
      do 4 (split; [reflexivity | ]). split.
      * intros _ _. split; [reflexivity | split].
        -- intros _. repeat split.
        -- intros e He. discriminate He.
      * intros [Hempty | (session & Hin & Hsame)]; [contradiction | ].
        now destruct (Hnew session Hin).
    + do 4 (split; [reflexivity | ]). split.
      * intros _ _. split; [reflexivity | split].
        -- intros He. discriminate He.
        -- intros e' He. injection He as <-. repeat split.
      * intros [Hempty | (session & Hin & Hsame)]; [contradiction | ].
        now destruct (Hnew session Hin).
  - rewrite (handleNewChat_keeps stored s (or_intror Hold)).
    cbn [fst snd app trace prompt isLoading chatSessions messages].
    do 4 (split; [reflexivity | ]). split.
    + intros _ Hnew. destruct Hold as (session & Hin & Hsame).
      now destruct (Hnew session Hin).
    + intros _. repeat split.
Qed.

(** X9. A transcript is archived once, however often it comes back.  If the
    buffer of a later state holds the same messages as the buffer on which
    [handleNewChat] ran, and the archive is the one that call left, a new
    call of [handleNewChat] adds nothing to the archive and writes nothing;
    and this however the writes of the two calls complete. *)
Theorem X9_same_transcript_archived_once (stored stored' : Res unit) (s later : Store) :
  messages (app later) = messages (app s) ->
  chatSessions (app later) = chatSessions (app (exec (handleNewChat stored) s)) ->
  chatSessions (app (exec (handleNewChat stored') later)) = chatSessions (app later)
  /\ trace (exec (handleNewChat stored') later) = trace later.
Proof.
  intros Hms Harch. unfold exec in *.
  assert (Hkeep :
    messages (app later) = []
    \/ (exists session, In session (chatSessions (app later))
                        /\ serial session = serial (messages (app later)))).
  { destruct (handleNewChat_situation s) as [Hempty | [(Hne & Hnew) | (Hne & Hold)]].
    - left. congruence.
    - right. rewrite (handleNewChat_appends stored s Hne Hnew) in Harch.
      assert (Harch' : chatSessions (app later)
                       = (chatSessions (app s) ++ [messages (app s)])%list)
        by (destruct stored; exact Harch).
      exists (messages (app s)). rewrite Harch', Hms.
      split; [apply in_or_app; right; now left | reflexivity].
    - right. rewrite (handleNewChat_keeps stored s (or_intror Hold)) in Harch.
      cbn in Harch.
      destruct Hold as (session & Hin & Hsame).
      exists session. rewrite Harch, Hms. now split. }
  rewrite (handleNewChat_keeps stored' later Hkeep). now split.
Qed.

(** *** What the handlers keep, in any order *)

Lemma handleSubmit_frame r s :
  chatSessions (app (exec (handleSubmit r) s)) = chatSessions (app s)
  /\ writes (trace (exec (handleSubmit r) s)) = writes (trace s)
  /\ (isLoading (app (exec (handleSubmit r) s)) = false
      \/ isLoading (app (exec (handleSubmit r) s)) = isLoading (app s)).
Proof.
  unfold exec. destruct (accepted s) eqn:Hacc.
  - rewrite (handleSubmit_accepted _ _ Hacc). cbn [fst].
    destruct (submit_guarded_outcome (closure_of (at_submit r) s) r (entered (at_submit r) s))
      as [(reply & ->) | [(e & ->) | (data & ->)]]; cbn [fst snd].
    + destruct (persistence r); cbn; rewrite !writes_app; cbn;
        rewrite ?app_nil_r; auto.
    + cbn. rewrite !writes_app. cbn. rewrite !app_nil_r. auto.
    + cbn. rewrite !writes_app. cbn. rewrite !app_nil_r. auto.
  - destruct (truthy user) eqn:Hu.
    + destruct (String.eqb_spec (trim (prompt (app s))) "") as [Hp | Hp].
      * rewrite (handleSubmit_refused _ _ _ _ (submit_prefix_blank _ _ Hu Hp)). cbn.
        rewrite writes_app. cbn. rewrite app_nil_r. auto.
      * assert (Hlen : maxMessagesPerSession <= Z.of_nat (List.length (messages (app s)))).
        { unfold accepted in Hacc. rewrite Hu in Hacc.
          apply String.eqb_neq in Hp. rewrite Hp in Hacc. cbn in Hacc.
          now apply Z.ltb_ge in Hacc. }
        rewrite (handleSubmit_refused _ _ _ _ (submit_prefix_full _ _ Hu Hp Hlen)). cbn.
        rewrite writes_app. cbn. rewrite app_nil_r. auto.
    + rewrite (handleSubmit_refused _ _ _ _ (submit_prefix_no_user _ _ Hu)). cbn.
      rewrite writes_app. cbn. rewrite app_nil_r. auto.
Qed.

Lemma submit_frame sub s :
  chatSessions (app (exec (submit sub) s)) = chatSessions (app s)
  /\ writes (trace (exec (submit sub) s)) = writes (trace s)
  /\ (isLoading (app (exec (submit sub) s)) = false
      \/ isLoading (app (exec (submit sub) s)) = isLoading (app s)).
Proof.
  unfold submit, exec, mbind. cbn [setPrompt update fst snd].
  set (s0 := {| app := _; trace := trace s |}).
  exact (handleSubmit_frame (round sub) s0).
Qed.

Lemma history_effect_frame answer s :
  chatSessions (app (exec (history_effect answer) s)) = chatSessions (app s)
  /\ writes (trace (exec (history_effect answer) s)) = writes (trace s)
  /\ isLoading (app (exec (history_effect answer) s)) = isLoading (app s).
Proof.
  unfold history_effect, exec. destruct (truthy user); cbn [negb]; [ | now cbn].
  destruct answer as [response | e].
  - destruct (json response) as [data | e] eqn:Hjson.
    + rewrite (fetchChatHistory_data _ _ _ Hjson).
      destruct (js_map expand data); cbn; rewrite writes_app; cbn;
        now rewrite app_nil_r.
    + rewrite (fetchChatHistory_undecoded _ _ _ Hjson). cbn.
      rewrite writes_app. cbn. now rewrite app_nil_r.
  - rewrite fetchChatHistory_rejected. cbn.
    rewrite writes_app. cbn. now rewrite app_nil_r.
Qed.

Lemma persisted_writes t1 t2 : writes t1 = writes t2 -> persisted t1 = persisted t2.
Proof. unfold persisted. now intros ->. Qed.

Lemma run_invariant (P : Store -> Prop) :
  (forall s a, P s -> P (step s a)) ->
  forall acts s, P s -> P (run acts s).
Proof.
  intros Hstep. induction acts as [ | a acts IH]; intros s Hs; [exact Hs | ].
  cbn [run fold_left]. apply IH. now apply Hstep.
Qed.

(** X10. However submissions, new chats and history loads follow one
    another, the component at rest keeps three things: the loading flag is
    false, no two archived sessions have the same serialisation (so no
    transcript is archived twice), and no archived session is empty. *)
Theorem X10_rest_invariant (acts : list Action) (s : Store) :
  at_rest s ->
  at_rest (run acts s) /\ NoDup (chatSessions (app (run acts s))).
Proof.
  intros Hs.
  assert (H : at_rest (run acts s)).
  { revert acts s Hs. apply run_invariant.
    intros s [sub | stored | answer] (Hload & Hnd & Hne); cbn [step].
    - destruct (submit_frame sub s) as (Harch & _ & Hl).
      unfold at_rest. rewrite Harch.
      split; [destruct Hl; congruence | now split].
    - unfold exec.
      destruct (handleNewChat_situation s) as [Hempty | [(Hnon & Hnew) | (Hnon & Hold)]].
      + rewrite (handleNewChat_keeps stored s (or_introl Hempty)). now split.
      + rewrite (handleNewChat_appends stored s Hnon Hnew). unfold at_rest.
        assert (Hleft :
          isLoading (app s) = false
          /\ NoDup (map serial (chatSessions (app s) ++ [messages (app s)]))
          /\ Forall (fun session => session <> [])
                    (chatSessions (app s) ++ [messages (app s)])%list);
          [ | destruct stored; exact Hleft].
        split; [exact Hload | split].
        * rewrite map_app. apply NoDup_app; [exact Hnd | repeat constructor; intros [] | ].
          intros a Ha [<- | []]. apply in_map_iff in Ha as (session & Hsame & Hin).
          now destruct (Hnew session Hin).
        * apply Forall_app. split; [exact Hne | now constructor].
      + rewrite (handleNewChat_keeps stored s (or_intror Hold)). now split.
    - destruct (history_effect_frame answer s) as (Harch & _ & Hl).
      unfold at_rest. rewrite Harch, Hl. now split. }
  split; [exact H | ].
  destruct H as (_ & Hnd & _). now apply NoDup_map_inv in Hnd.
Qed.

Lemma step_behind s a : behind s -> behind (step s a).
Proof.
  destruct a as [sub | stored | answer]; cbn [step]; unfold behind; intros Hs.
  - destruct (submit_frame sub s) as (Harch & Hw & _).
    now rewrite Harch, (persisted_writes _ _ Hw).
  - unfold exec.
    destruct (handleNewChat_situation s) as [Hempty | [(Hnon & Hnew) | (Hnon & Hold)]].
    + now rewrite (handleNewChat_keeps stored s (or_introl Hempty)).
    + rewrite (handleNewChat_appends stored s Hnon Hnew).
      destruct stored as [[] | e]; cbn [fst app trace chatSessions].
      * rewrite persisted_write.
        exists (chatSessions (app s) ++ [messages (app s)])%list, [].
        now rewrite app_nil_r.
      * destruct (persisted (trace s)) as [held | ]; [ | exact I].
        destruct Hs as (earlier & later & Harch & Hheld).
        exists earlier, (later ++ [messages (app s)])%list.
        now rewrite Harch, app_assoc.
    + now rewrite (handleNewChat_keeps stored s (or_intror Hold)).
  - destruct (history_effect_frame answer s) as (Harch & Hw & _).
    now rewrite Harch, (persisted_writes _ _ Hw).
Qed.

Lemma in_sync_behind s : in_sync s -> behind s.
Proof.
  unfold in_sync, behind. destruct (persisted (trace s)) as [held | ]; [ | trivial].
  intros ->. exists (chatSessions (app s)), []. now rewrite app_nil_r.
Qed.

(** X11. The stored copy of the archive never runs ahead of the archive, and
    follows it as long as the writes succeed.  From a state in which the
    value under ["chatSessions"] is the serialised archive (or nothing was
    written and the archive is empty), after any sequence of submissions, new
    chats and history loads the stored value, if any, is the serialisation of
    the first sessions of the archive (the archive as it was at the last
    write that succeeded); and if every write of the sequence succeeds, it is
    the serialisation of the whole archive. *)
Theorem X11_storage_in_sync (acts : list Action) (s : Store) :
  in_sync s ->
  behind (run acts s)
  /\ (writes_succeed acts -> in_sync (run acts s)).
Proof.
  intros Hs. split.
  - apply run_invariant; [intros s0 a; apply step_behind | now apply in_sync_behind].
  - intros Hok. revert s Hs.
    induction Hok as [ | a acts Ha _ IH]; intros s Hs; [exact Hs | ].
    cbn [run fold_left]. apply IH.
    destruct a as [sub | stored | answer]; cbn [step]; unfold in_sync in *.
    + destruct (submit_frame sub s) as (Harch & Hw & _).
      now rewrite Harch, (persisted_writes _ _ Hw).
    + subst stored. unfold exec.
      destruct (handleNewChat_situation s) as [Hempty | [(Hnon & Hnew) | (Hnon & Hold)]].
      * now rewrite (handleNewChat_keeps (Normal tt) s (or_introl Hempty)).
      * rewrite (handleNewChat_appends (Normal tt) s Hnon Hnew).
        cbn [fst app trace chatSessions]. now rewrite persisted_write.
      * now rewrite (handleNewChat_keeps (Normal tt) s (or_intror Hold)).
    + destruct (history_effect_frame answer s) as (Harch & Hw & _).
      now rewrite Harch, (persisted_writes _ _ Hw).
Qed.

(** X12. The buffer tops out at [maxMessagesPerSession] + 1.  From a buffer
    of at most 21 messages, no sequence of submissions, whatever the remote
    calls do, takes the buffer beyond 21 messages; while a submission waits
    for the generation service the buffer holds at most 20. *)
Theorem X12_buffer_tops_out (subs : list Submission) (s : Store) :
  Z.of_nat (List.length (messages (app s))) <= maxMessagesPerSession + 1 ->
  let s' := run_session subs s in
  Z.of_nat (List.length (messages (app s'))) <= maxMessagesPerSession + 1
  /\ forall sub p, submission_pending sub s' = Some p ->
       Z.of_nat (List.length (messages (app p))) <= maxMessagesPerSession.
Proof.
  intros Hbound s'. subst s'. split.
  - apply (run_session_invariant
             (fun ms => Z.of_nat (List.length ms) <= maxMessagesPerSession + 1));
      [ | exact Hbound].
    intros sub s0 _ H0.
    destruct (submit_messages sub s0) as [-> | (Hlen & _ & u & _ & [-> | (b & _ & ->)])];
      [exact H0 | | ]; rewrite length_app; cbn [List.length];
      unfold maxMessagesPerSession in *; lia.
  - intros sub p Hp. apply submission_pending_messages in Hp as (-> & Hlen).
    rewrite length_app. cbn [List.length]. unfold maxMessagesPerSession in *. lia.
Qed.

(** *** Calls that overlap *)

Lemma resume_settle (body : M unit) s :
  fst (try_catch_finally body
         (fun error => console_error "Error:" (LoggedExn error))
         (setIsLoading false) s)
  = settle (fst (body s)) (snd (body s)).
Proof.
  unfold try_catch_finally, settle, exec.
  destruct (body s) as [s1 [[] | e]]; reflexivity.
Qed.

(** An uninterrupted call is its prefix, the call of [fetch], and the rest
    run in the store those leave. *)
Lemma handleSubmit_resumes r s p :
  pending_store (at_submit r) s = Some p ->
  accepted s = true
  /\ p = exec (request_generation (closure_of (at_submit r) s)) (entered (at_submit r) s)
  /\ exec (handleSubmit r) s = exec (submit_resume (closure_of (at_submit r) s) r) p.
Proof.
  intros Hp. destruct (accepted s) eqn:Hacc.
  - rewrite (pending_store_accepted _ _ Hacc) in Hp. injection Hp as <-.
    split; [reflexivity | split; [reflexivity | ]].
    unfold exec at 1. rewrite (handleSubmit_accepted _ _ Hacc). cbn [fst].
    unfold submit_resume, exec. rewrite resume_settle. reflexivity.
  - rewrite (pending_store_not_accepted _ _ Hacc) in Hp. discriminate.
Qed.

Lemma submit_resume_data c r s response data :
  generation r = Fulfilled response -> json response = Fulfilled data ->
  exec (submit_resume c r) s
  = settle (fst (on_data c r data s)) (snd (on_data c r data s)).
Proof.
  intros Hgen Hjson. unfold submit_resume, exec. rewrite resume_settle.
  unfold mbind. rewrite Hgen. cbn [await ret]. now rewrite Hjson.
Qed.

Lemma submit_resume_thrown c r s e :
  generation r = Rejected e
  \/ (exists response, generation r = Fulfilled response /\ json response = Rejected e) ->
  exec (submit_resume c r) s = settle s (Throw e).
Proof.
  intros H. unfold submit_resume, exec. rewrite resume_settle. unfold mbind.
  destruct H as [Hgen | (response & Hgen & Hjson)]; rewrite Hgen; cbn [await ret raise];
    [reflexivity | now rewrite Hjson].
Qed.

Lemma settle_saves s1 r1 : saves (trace (settle s1 r1)) = saves (trace s1).
Proof.
  destruct r1 as [[] | e]; cbn; [reflexivity | ].
  rewrite saves_app. cbn. now rewrite app_nil_r.
Qed.

(** The rest of a call whose generation call is answered with a reply sets
    the buffer to the transcript the call captured, followed by the reply,
    in whatever store it is resumed. *)
Lemma submit_resume_replied c r s reply :
  generation_replied r reply ->
  let s' := exec (submit_resume c r) s in
  messages (app s') = (c_newMessages c ++ [bot_message reply (at_reply r)])%list
  /\ chatSessions (app s') = chatSessions (app s)
  /\ isLoading (app s') = false
  /\ saves (trace s') = (saves (trace s) ++ [(c_prompt c, reply)])%list.
Proof.
  intros (response & data & Hgen & Hjson & Hreply) s'. subst s'.
  rewrite (submit_resume_data _ _ _ _ _ Hgen Hjson).
  rewrite (on_data_reply _ _ _ _ _ Hreply). cbn [fst snd].
  match goal with |- context [settle ?a ?b] =>
    destruct (settle_app a b) as (Hm & Ha & Hl & _);
    pose proof (settle_saves a b) as Hs
  end.
  rewrite Hm, Ha, Hl, Hs. cbn. rewrite saves_app. cbn.
  repeat split; reflexivity.
Qed.

(** The rest of a call whose generation call fails leaves the buffer it
    finds. *)
Lemma submit_resume_failed c r s :
  generation_failed r ->
  let s' := exec (submit_resume c r) s in
  messages (app s') = messages (app s)
  /\ chatSessions (app s') = chatSessions (app s)
  /\ isLoading (app s') = false
  /\ saves (trace s') = saves (trace s).
Proof.
  intros (entry & Hfail) s'. subst s'.
  destruct Hfail as [e Hgen | response e Hgen Hjson | response data Hgen Hjson Hnull
                     | response data Hgen Hjson Hlack].
  - rewrite (submit_resume_thrown c r s e (or_introl Hgen)).
    destruct (settle_app s (Throw e)) as (Hm & Ha & Hl & _).
    now rewrite Hm, Ha, Hl, settle_saves.
  - rewrite (submit_resume_thrown c r s e
               (or_intror (ex_intro _ response (conj Hgen Hjson)))).
    destruct (settle_app s (Throw e)) as (Hm & Ha & Hl & _).
    now rewrite Hm, Ha, Hl, settle_saves.
  - rewrite (submit_resume_data _ _ _ _ _ Hgen Hjson).
    rewrite (on_data_null _ _ _ _ Hnull). cbn [fst snd].
    destruct (settle_app s (Throw TypeError)) as (Hm & Ha & Hl & _).
    now rewrite Hm, Ha, Hl, settle_saves.
  - rewrite (submit_resume_data _ _ _ _ _ Hgen Hjson).
    rewrite (on_data_lacking _ _ _ _ Hlack). cbn [fst snd].
    match goal with |- context [settle ?a ?b] =>
      destruct (settle_app a b) as (Hm & Ha & Hl & _);
      pose proof (settle_saves a b) as Hs
    end.
    rewrite Hm, Ha, Hl, Hs. cbn. rewrite saves_app. cbn. now rewrite app_nil_r.
Qed.

(** X13. A new chat started while a submission waits for its reply does not
    last.  [handleNewChat] leaves the unanswered transcript in the archive
    and, when it returns normally (as it does when its write succeeds),
    an empty buffer; but when the reply arrives, the rest of the call sets
    the buffer to the transcript it captured followed by the reply, so the
    conversation that was cleared is back in the buffer, however the write
    of the new chat completed.  When the generation call fails instead, the
    buffer stays as the new chat left it: empty, when that call returned
    normally.  Either way the loading flag ends false and the archive is not
    touched again.  (The rest of the call is what an uninterrupted call runs
    from its pending store.) *)
Theorem X13_new_chat_while_pending (stored : Res unit) (r : Round) (s p : Store) :
  pending_store (at_submit r) s = Some p ->
  let c := closure_of (at_submit r) s in
  let asked_so_far :=
    (messages (app s) ++ [user_message (prompt (app s)) (at_submit r)])%list in
  let cleared := exec (handleNewChat stored) p in
  exec (handleSubmit r) s = exec (submit_resume c r) p
  /\ (stored = Normal tt -> completion (handleNewChat stored) p = Normal tt)
  /\ (completion (handleNewChat stored) p = Normal tt -> messages (app cleared) = [])
  /\ (exists session, In session (chatSessions (app cleared))
                      /\ serial session = serial asked_so_far)
  /\ (forall reply, generation_replied r reply ->
        messages (app (exec (submit_resume c r) cleared))
        = (asked_so_far ++ [bot_message reply (at_reply r)])%list
        /\ chatSessions (app (exec (submit_resume c r) cleared))
           = chatSessions (app cleared)
        /\ isLoading (app (exec (submit_resume c r) cleared)) = false)
  /\ (generation_failed r ->
        messages (app (exec (submit_resume c r) cleared)) = messages (app cleared)
        /\ chatSessions (app (exec (submit_resume c r) cleared))
           = chatSessions (app cleared)
        /\ isLoading (app (exec (submit_resume c r) cleared)) = false).
Proof.
  intros Hp c asked_so_far cleared.
  destruct (handleSubmit_resumes _ _ _ Hp) as (Hacc & Hpe & Hres).
  assert (Hpm : messages (app p) = asked_so_far) by now rewrite Hpe.
  pose proof (handleNewChat_cases stored p) as Hcases. cbv zeta in Hcases.
  fold cleared in Hcases.
  split; [exact Hres | split; [ | split; [ | split; [ | split]]]].
  - intros Hstored.
    destruct Hcases as [(_ & _ & _ & Hdone) | (_ & _ & _ & _ & [(_ & _ & Hdone) | (e & He & _)])];
      [exact Hdone | exact Hdone | congruence].
  - intros Hdone.
    destruct Hcases as [(_ & _ & Hm & _) | (_ & _ & _ & _ & [(_ & Hm & _) | (e & _ & _ & Ht)])];
      [exact Hm | exact Hm | congruence].
  - subst cleared. unfold exec.
    destruct (handleNewChat_situation p) as [H | [(Hne & Hnew) | (Hne & Hold)]].
    + rewrite Hpm in H. subst asked_so_far. now destruct (messages (app s)).
    + rewrite (handleNewChat_appends stored p Hne Hnew).
      exists asked_so_far.
      destruct stored; cbn; rewrite Hpm;
        (split; [apply in_or_app; right; now left | reflexivity]).
    + rewrite (handleNewChat_keeps stored p (or_intror Hold)). cbn. now rewrite <- Hpm.
  - intros reply Hreply.
    destruct (submit_resume_replied c r cleared reply Hreply) as (Hm & Ha & Hl & _).
    now split.
  - intros Hfail.
    destruct (submit_resume_failed c r cleared Hfail) as (Hm & Ha & Hl & _).
    now split.
Qed.

(** X14. Of two overlapping submissions, the reply that arrives last decides
    the buffer.  When a second submission is accepted while the first waits
    for its reply, and both get replies: if the first reply arrives first,
    the buffer ends as both user messages followed by the second reply, and
    the first reply is not in it; if the second reply arrives first, the
    buffer ends as the first user message and the first reply, and the second
    exchange is not in it.  Both exchanges are saved in either order, and the
    loading flag is already false when the first of the two completes.  (Each
    call is resumed in one piece.) *)
Theorem X14_overlapping_submissions
    (r1 r2 : Round) (typed2 : string) (s p1 p2 : Store) (reply1 reply2 : JSValue) :
  pending_store (at_submit r1) s = Some p1 ->
  pending_store (at_submit r2) (exec (setPrompt typed2) p1) = Some p2 ->
  generation_replied r1 reply1 ->
  generation_replied r2 reply2 ->
  let c1 := closure_of (at_submit r1) s in
  let c2 := closure_of (at_submit r2) (exec (setPrompt typed2) p1) in
  let u1 := user_message (prompt (app s)) (at_submit r1) in
  let u2 := user_message typed2 (at_submit r2) in
  let first_then_second := exec (submit_resume c2 r2) (exec (submit_resume c1 r1) p2) in
  let second_then_first := exec (submit_resume c1 r1) (exec (submit_resume c2 r2) p2) in
  messages (app p2) = (messages (app s) ++ [u1; u2])%list
  /\ messages (app first_then_second)
     = (messages (app s) ++ [u1; u2; bot_message reply2 (at_reply r2)])%list
  /\ messages (app second_then_first)
     = (messages (app s) ++ [u1; bot_message reply1 (at_reply r1)])%list
  /\ saves (trace first_then_second)
     = (saves (trace p2) ++ [(prompt (app s), reply1); (typed2, reply2)])%list
  /\ saves (trace second_then_first)
     = (saves (trace p2) ++ [(typed2, reply2); (prompt (app s), reply1)])%list
  /\ isLoading (app (exec (submit_resume c1 r1) p2)) = false
  /\ isLoading (app (exec (submit_resume c2 r2) p2)) = false.
Proof.
  intros Hp1 Hp2 Hr1 Hr2 c1 c2 u1 u2 first_then_second second_then_first.
  destruct (handleSubmit_resumes _ _ _ Hp1) as (_ & Hpe1 & _).
  destruct (handleSubmit_resumes _ _ _ Hp2) as (_ & Hpe2 & _).
  assert (Hm1 : messages (app p1) = (messages (app s) ++ [u1])%list) by now rewrite Hpe1.
  assert (Hc1 : c_newMessages c1 = (messages (app s) ++ [u1])%list) by reflexivity.
  assert (Hc2 : c_newMessages c2 = (messages (app s) ++ [u1; u2])%list).
  { subst c2. cbn. rewrite Hm1, <- app_assoc. reflexivity. }
  assert (Hpr1 : c_prompt c1 = prompt (app s)) by reflexivity.
  assert (Hpr2 : c_prompt c2 = typed2) by reflexivity.
  assert (Hm2 : messages (app p2) = (messages (app s) ++ [u1; u2])%list).
  { rewrite Hpe2. cbn. rewrite Hm1, <- app_assoc. reflexivity. }
  subst first_then_second second_then_first.
  destruct (submit_resume_replied c1 r1 p2 reply1 Hr1) as (Ha1 & _ & Hl1 & Hs1).
  destruct (submit_resume_replied c2 r2 p2 reply2 Hr2) as (Ha2 & _ & Hl2 & Hs2).
  destruct (submit_resume_replied c2 r2 (exec (submit_resume c1 r1) p2) reply2 Hr2)
    as (Hb2 & _ & _ & Ht2).
  destruct (submit_resume_replied c1 r1 (exec (submit_resume c2 r2) p2) reply1 Hr1)
    as (Hb1 & _ & _ & Ht1).
  split; [exact Hm2 | ].
  split; [rewrite Hb2, Hc2, <- app_assoc; reflexivity | ].
  split; [rewrite Hb1, Hc1, <- app_assoc; reflexivity | ].
  split; [rewrite Ht2, Hs1, Hpr1, Hpr2, <- app_assoc; reflexivity | ].
  split; [rewrite Ht1, Hs2, Hpr1, Hpr2, <- app_assoc; reflexivity | ].
  now split.
Qed.

(** *** What is saved is what is shown *)

Lemma saves_of_requests t :
  saves t
  = flat_map (fun req => match req with SaveChat p r => [(p, r)] | _ => [] end)
             (requests t).
Proof.
  induction t as [ | e t IH]; [reflexivity | ].
  change (e :: t) with ([e] ++ t)%list.
  rewrite saves_app, requests_app, flat_map_app, IH.
  destruct e as [ | | [ | | ] | | ]; reflexivity.
Qed.

(** A submission that gets its reply appends the exchange to the buffer and
    saves it, or is refused and does neither. *)
Lemma submit_exchange sub s :
  replied sub ->
  let s' := exec (submit sub) s in
  (messages (app s') = messages (app s) /\ saves (trace s') = saves (trace s))
  \/ (exists u b pr,
        messages (app s') = (messages (app s) ++ [u; b])%list
        /\ saves (trace s') = (saves (trace s) ++ [pr])%list
        /\ [authored u; authored b] = exchange_lines pr).
Proof.
  intros (reply & Hreply) s'. subst s'.
  unfold submit, exec, mbind. cbn [setPrompt update fst snd].
  set (s0 := {| app := _; trace := trace s |}).
  change (messages (app s)) with (messages (app s0)).
  change (trace s) with (trace s0).
  destruct (accepted s0) eqn:Hacc.
  - right.
    exists (user_message (prompt (app s0)) (at_submit (round sub))),
           (bot_message reply (at_reply (round sub))), (prompt (app s0), reply).
    pose proof (handleSubmit_replied_messages (round sub) s0 reply Hacc Hreply) as Hm.
    unfold exec in Hm. split; [exact Hm | split; [ | reflexivity]].
    rewrite (handleSubmit_accepted _ _ Hacc). cbn [fst].
    destruct Hreply as (response & data & Hgen & Hjson & Hreply).
    rewrite (submit_guarded_data _ _ _ _ _ Hgen Hjson).
    rewrite (on_data_reply _ _ _ _ _ Hreply). cbn [fst snd].
    destruct (persistence (round sub)); cbn; rewrite !saves_app; cbn;
      now rewrite ?app_nil_r.
  - left. destruct (handleSubmit_not_accepted (round sub) s0 Hacc) as (Ha & Hr).
    unfold exec in Ha, Hr. rewrite Ha. split; [reflexivity | ].
    now rewrite !saves_of_requests, Hr.
Qed.

Lemma fetchChatHistory_records records s :
  messages (app (exec (fetchChatHistory
                         (Fulfilled {| json := Fulfilled (JArr (map record_value records)) |}))
                      s))
  = flat_map spec_expansion records.
Proof.
  unfold exec.
  rewrite (fetchChatHistory_data
             {| json := Fulfilled (JArr (map record_value records)) |}
             (JArr (map record_value records)) s eq_refl).
  cbn [js_map]. rewrite map_res_expand. cbn.
  now rewrite <- flat_map_concat_map.
Qed.

Lemma records_lines records saved :
  Forall2 records_exchange records saved ->
  map authored (flat_map spec_expansion records) = flat_map exchange_lines saved.
Proof.
  induction 1 as [ | h pr records saved (Hp & Hr) _ IH]; [reflexivity | ].
  cbn [flat_map]. rewrite map_app, IH.
  unfold spec_expansion, exchange_lines, authored. cbn. now rewrite Hp, Hr.
Qed.

(** X15. What a session shows is what it saved, and loading it back gives
    the same conversation.  In a session that starts with an empty buffer and
    no save call made, and in which every accepted submission gets its reply,
    the buffer is, message for message (text and author), the sequence of the
    saved exchanges: each prompt as a user message followed by its reply as a
    bot message.  If the history store then returns one record per save call
    with that prompt and that response, in order, [fetchChatHistory] fills
    any buffer with messages of the same texts and authors as the session
    showed; only the instants are the store's. *)
Theorem X15_saved_session_reloads
    (subs : list Submission) (s other : Store) (records : list HistoryRecord) :
  messages (app s) = [] ->
  saves (trace s) = [] ->
  Forall replied subs ->
  let s' := run_session subs s in
  map authored (messages (app s')) = flat_map exchange_lines (saves (trace s'))
  /\ (Forall2 records_exchange records (saves (trace s')) ->
      map authored
        (messages (app (exec (fetchChatHistory
                                (Fulfilled {| json := Fulfilled
                                                (JArr (map record_value records)) |}))
                             other)))
      = map authored (messages (app s'))).
Proof.
  intros Hempty Hnone Hall s'.
  assert (Hshown : map authored (messages (app s'))
                   = flat_map exchange_lines (saves (trace s'))).
  { subst s'.
    assert (Hstart : map authored (messages (app s))
                     = flat_map exchange_lines (saves (trace s)))
      by now rewrite Hempty, Hnone.
    clear Hempty Hnone. revert s Hstart.
    induction Hall as [ | sub subs Hsub _ IH]; intros s Hstart; [exact Hstart | ].
    cbn [run_session fold_left]. apply IH.
    destruct (submit_exchange sub s Hsub) as [(-> & ->) | (u & b & pr & -> & -> & Hlines)];
      [exact Hstart | ].
    rewrite map_app, flat_map_app, Hstart. cbn [map flat_map].
    now rewrite Hlines, app_nil_r. }
  split; [exact Hshown | ].
  intros Hrecords.
  now rewrite fetchChatHistory_records, Hshown, (records_lines _ _ Hrecords).
Qed.

(** X16. A loaded history of ten or more records fills the session.  After
    such a load every submission is refused: the buffer is unchanged and no
    network call is issued, and a submission with the user present and a
    prompt that is not blank gets the limit notice.  Once [handleNewChat] has
    run and returned normally, as it does when its write succeeds, that same
    submission is accepted. *)
Theorem X16_history_fills_session
    (records : list HistoryRecord) (s : Store) (sub : Submission) (stored : Res unit) :
  (10 <= List.length records)%nat ->
  let loaded :=
    exec (fetchChatHistory
            (Fulfilled {| json := Fulfilled (JArr (map record_value records)) |})) s in
  messages (app (exec (submit sub) loaded)) = messages (app loaded)
  /\ requests (trace (exec (submit sub) loaded)) = requests (trace loaded)
  /\ (truthy user = true -> all_white_space (typed sub) = false ->
      alerts (trace (exec (submit sub) loaded))
      = (alerts (trace loaded) ++ ["Chat limit reached. Please start a new chat."])%list
      /\ (stored = Normal tt -> completion (handleNewChat stored) loaded = Normal tt)
      /\ (completion (handleNewChat stored) loaded = Normal tt ->
          submission_pending sub (exec (handleNewChat stored) loaded) <> None)).
Proof.
  intros Hten loaded.
  assert (Hlen : maxMessagesPerSession <= Z.of_nat (List.length (messages (app loaded)))).
  { subst loaded. rewrite fetchChatHistory_records, length_flat_map_expansion.
    unfold maxMessagesPerSession. lia. }
  unfold submit, exec, mbind. cbn [setPrompt update fst snd].
  set (s0 := {| app := _; trace := trace loaded |}).
  assert (Hrej : accepted s0 = false).
  { unfold accepted. apply andb_false_iff. right. apply Z.ltb_ge. exact Hlen. }
  destruct (handleSubmit_not_accepted (round sub) s0 Hrej) as (Ha & Hr).
  unfold exec in Ha, Hr. rewrite Ha, Hr.
  split; [reflexivity | split; [reflexivity | ]].
  intros Hu Hblack.
  assert (Hp : trim (typed sub) <> "").
  { intros H. apply trim_empty_iff in H. congruence. }
  pose proof (handleNewChat_cases stored loaded) as Hcases. cbv zeta in Hcases.
  unfold exec, completion in Hcases.
  split; [ | split].
  - rewrite (handleSubmit_refused _ _ _ _ (submit_prefix_full _ s0 Hu Hp Hlen)). cbn.
    rewrite !alerts_app. cbn. reflexivity.
  - intros Hstored. unfold completion.
    destruct Hcases as [(_ & _ & _ & Hdone) | (_ & _ & _ & _ & [(_ & _ & Hdone) | (e & He & _)])];
      [exact Hdone | exact Hdone | congruence].
  - intros Hdone. unfold completion in Hdone.
    assert (Hm : messages (app (fst (handleNewChat stored loaded))) = []).
    { destruct Hcases as [(_ & _ & Hm & _) | (_ & _ & _ & _ & [(_ & Hm & _) | (e & _ & _ & Ht)])];
        [exact Hm | exact Hm | congruence]. }
    unfold submission_pending, exec. cbn [setPrompt update fst].
    set (s1 := {| app := _; trace := trace (fst (handleNewChat stored loaded)) |}).
    assert (Hacc : accepted s1 = true).
    { unfold accepted. rewrite Hu. apply String.eqb_neq in Hp.
      replace (prompt (app s1)) with (typed sub) by reflexivity. rewrite Hp. cbn.
      replace (messages (app s1))
        with (messages (app (fst (handleNewChat stored loaded)))) by reflexivity.
      now rewrite Hm. }
    rewrite (pending_store_accepted _ _ Hacc). discriminate.
Qed.

End Handlers.

(** ** The properties at concrete inputs *)

Lemma answered_replied reply :
  generation_replied (answered (reply_body reply)) reply.
Proof.
  exists {| json := Fulfilled (reply_body reply) |}, (reply_body reply).
  repeat split. eexists _, _. split; reflexivity.
Qed.

Lemma replied_twice_replied : Forall replied replied_twice.
Proof.
  repeat constructor; eexists; apply answered_replied.
Qed.

(** The scenarios of the specification (8). *)
Example scenario_reply :
  handleSubmit nan_coercion ann demo_key (answered (reply_body (JStr "hi")))
    (asking "hello" [])
  = ({| app := {| prompt := "";
                  messages := [user_message "hello" t_submit;
                               bot_message (JStr "hi") t_reply];
                  chatSessions := [];
                  isLoading := false |};
        trace := [PreventDefault;
                  Fetch (GenerateContent demo_key "hello");
                  Fetch (SaveChat "hello" (JStr "hi"))] |},
     Normal RetUndefined).
Proof. reflexivity. Qed.

Example scenario_no_candidates :
  handleSubmit nan_coercion ann demo_key (answered (JObj [("candidates", JArr [])]))
    (asking "hello" [])
  = ({| app := {| prompt := "";
                  messages := [user_message "hello" t_submit];
                  chatSessions := [];
                  isLoading := false |};
        trace := [PreventDefault;
                  Fetch (GenerateContent demo_key "hello");
                  ConsoleError "Unexpected API response:"
                    (LoggedValue (JObj [("candidates", JArr [])]))] |},
     Normal RetUndefined).
Proof. reflexivity. Qed.

Example scenario_pending :
  pending_store ann demo_key t_submit (asking "hello" [])
  = Some {| app := {| prompt := "";
                      messages := [user_message "hello" t_submit];
                      chatSessions := [];
                      isLoading := true |};
            trace := [PreventDefault; Fetch (GenerateContent demo_key "hello")] |}.
Proof. reflexivity. Qed.

Example scenario_history :
  messages (app (exec (fetchChatHistory
                         (delivered (JArr [JObj [("prompt", JStr "a");
                                                 ("response", JStr "b");
                                                 ("timestamp", JStr "T")]])))
                      mounted))
  = [ {| text := JStr "a"; isUser := true; timestamp := JStr "T" |};
      {| text := JStr "b"; isUser := false; timestamp := JStr "T" |} ].
Proof. reflexivity. Qed.

Example scenario_signed_out :
  exec (history_effect JNull
          (delivered (JArr [JObj [("prompt", JStr "a"); ("response", JStr "b");
                                  ("timestamp", JStr "T")]])))
       mounted
  = mounted.
Proof. reflexivity. Qed.

Example scenario_whitespace : trim (String (ascii_of_nat 9) "  ") = "".
Proof. reflexivity. Qed.

Example scenario_archive_once :
  chatSessions (app (exec (handleNewChat plain_stringify (Normal tt))
                       (archived greeting [greeting])))
  = [greeting].
Proof. reflexivity. Qed.

Lemma C1_witness :
  maxMessagesPerSession <= Z.of_nat (user_turns (messages (app at_limit)))
  /\ messages (app (exec (handleSubmit nan_coercion ann demo_key
                            (answered (reply_body (JStr "hi")))) at_limit))
     = messages (app at_limit)
  /\ alerts (trace (exec (handleSubmit nan_coercion ann demo_key
                            (answered (reply_body (JStr "hi")))) at_limit))
     = ["Chat limit reached. Please start a new chat."].
Proof.
  assert (H : maxMessagesPerSession <= Z.of_nat (user_turns (messages (app at_limit))))
    by (vm_compute; discriminate).
  destruct (proj1 (C1_submit_at_limit_rejected nan_coercion ann demo_key
                     (answered (reply_body (JStr "hi"))) at_limit) H)
    as (Hm & _ & _ & _ & Ha).
  split; [exact H | split; [exact Hm | ]].
  apply Ha; [reflexivity | vm_compute; discriminate].
Defined.

Lemma C2_witness :
  Nat.even (List.length (messages (app mounted))) = true
  /\ Z.of_nat (List.length (messages (app mounted))) <= 2 * maxMessagesPerSession
  /\ Nat.even (List.length
                 (messages (app (run_session nan_coercion ann demo_key
                                   replied_twice mounted)))) = true
  /\ exists p,
       submission_pending ann demo_key (asked "q3" unreachable)
         (run_session nan_coercion ann demo_key replied_twice mounted) = Some p
       /\ Nat.odd (List.length (messages (app p))) = true.
Proof.
  assert (He : Nat.even (List.length (messages (app mounted))) = true) by reflexivity.
  assert (Hb : Z.of_nat (List.length (messages (app mounted))) <= 2 * maxMessagesPerSession)
    by (vm_compute; discriminate).
  destruct (C2_length_parity_and_bound nan_coercion ann demo_key replied_twice mounted He Hb)
    as (_ & Hparity).
  destruct (Hparity replied_twice_replied) as (Heven & Hodd).
  split; [exact He | split; [exact Hb | split; [exact Heven | ]]].
  eexists. split; [vm_compute; reflexivity | ].
  apply (Hodd (asked "q3" unreachable)). vm_compute. reflexivity.
Defined.

Lemma C3_witness :
  accepted ann (asking "hello" []) = true
  /\ isLoading (app (exec (handleSubmit nan_coercion ann demo_key unreachable)
                        (asking "hello" []))) = false
  /\ completion (handleSubmit nan_coercion ann demo_key unreachable)
       (asking "hello" []) = Normal RetUndefined.
Proof.
  split; [reflexivity | ].
  apply (C3_loading_flag_cleared nan_coercion ann demo_key unreachable (asking "hello" [])).
  reflexivity.
Defined.

Lemma C4_witness :
  accepted ann (asking "hello" []) = true
  /\ messages (app (exec (handleSubmit nan_coercion ann demo_key
                            (answered_unsaved (reply_body (JStr "hi"))))
                       (asking "hello" [])))
     = [user_message "hello" t_submit; bot_message (JStr "hi") t_reply]
  /\ errors (trace (exec (handleSubmit nan_coercion ann demo_key
                            (answered_unsaved (reply_body (JStr "hi"))))
                       (asking "hello" [])))
     = [("Error:", LoggedExn TypeError)].
Proof.
  assert (Hacc : accepted ann (asking "hello" []) = true) by reflexivity.
  assert (Hrep : generation_replied (answered_unsaved (reply_body (JStr "hi"))) (JStr "hi")).
  { exists {| json := Fulfilled (reply_body (JStr "hi")) |}, (reply_body (JStr "hi")).
    repeat split. eexists _, _. split; reflexivity. }
  destruct (C4_reply_appended_and_saved nan_coercion ann demo_key
              (answered_unsaved (reply_body (JStr "hi"))) (asking "hello" [])
              (JStr "hi") Hacc Hrep)
    as (Hm & _ & _ & _ & Herr & _).
  split; [exact Hacc | split; [exact Hm | ]].
  apply (Herr TypeError). reflexivity.
Defined.

Lemma C5_witness :
  accepted ann (asking "hello" []) = true
  /\ generation_fails (answered (JObj [("candidates", JArr [])]))
       ("Unexpected API response:", LoggedValue (JObj [("candidates", JArr [])]))
  /\ messages (app (exec (handleSubmit nan_coercion ann demo_key
                            (answered (JObj [("candidates", JArr [])])))
                       (asking "hello" [])))
     = [user_message "hello" t_submit]
  /\ requests (trace (exec (handleSubmit nan_coercion ann demo_key
                              (answered (JObj [("candidates", JArr [])])))
                         (asking "hello" [])))
     = [GenerateContent demo_key "hello"]
  /\ errors (trace (exec (handleSubmit nan_coercion ann demo_key
                            (answered (JObj [("candidates", JArr [])])))
                       (asking "hello" [])))
     = [("Unexpected API response:", LoggedValue (JObj [("candidates", JArr [])]))].
Proof.
  assert (Hacc : accepted ann (asking "hello" []) = true) by reflexivity.
  assert (Hfail : generation_fails (answered (JObj [("candidates", JArr [])]))
                    ("Unexpected API response:",
                     LoggedValue (JObj [("candidates", JArr [])]))).
  { apply (failed_malformed _ {| json := Fulfilled (JObj [("candidates", JArr [])]) |}
             (JObj [("candidates", JArr [])])); [reflexivity | reflexivity | ].
    exists (JArr []). split; [reflexivity | now right]. }
  destruct (C5_failed_generation nan_coercion ann demo_key
              (answered (JObj [("candidates", JArr [])])) (asking "hello" []) _ Hacc Hfail)
    as (Hm & Hr & He & _).
  split; [exact Hacc | split; [exact Hfail | split; [exact Hm | split; [exact Hr | exact He]]]].
Defined.

Lemma C6_witness :
  NoDup (chatSessions (app (archived greeting [])))
  /\ NoDup (chatSessions (app (exec (handleNewChat plain_stringify (Normal tt))
                                  (archived greeting []))))
  /\ messages (app (exec (handleNewChat plain_stringify (Normal tt))
                      (archived greeting []))) = [].
Proof.
  assert (H : NoDup (chatSessions (app (archived greeting [])))) by constructor.
  destruct (C6_new_session_archives_once plain_stringify (Normal tt) (Normal tt)
              (archived greeting []))
    as (Hm & Hdone & Hnd & _).
  split; [exact H | split; [exact (Hnd H) | exact (Hm (Hdone eq_refl))]].
Defined.

Lemma C8_witness :
  (truthy JNull = false \/ trim (prompt (app (asking "hello" []))) = "")
  /\ app (exec (handleSubmit nan_coercion JNull demo_key
                  (answered (reply_body (JStr "hi")))) (asking "hello" []))
     = app (asking "hello" [])
  /\ requests (trace (exec (handleSubmit nan_coercion JNull demo_key
                              (answered (reply_body (JStr "hi")))) (asking "hello" [])))
     = [].
Proof.
  assert (H : truthy JNull = false \/ trim (prompt (app (asking "hello" []))) = "")
    by (left; reflexivity).
  destruct (C8_submit_without_identity_or_prompt nan_coercion JNull demo_key
              (answered (reply_body (JStr "hi"))) (asking "hello" []) H)
    as (Ha & _ & Hr & _).
  split; [exact H | split; [exact Ha | exact Hr]].
Defined.

Lemma C9_witness :
  messages (app mounted) = []
  /\ Forall replied replied_twice
  /\ (user_turns (messages (app (run_session nan_coercion ann demo_key
                                   replied_twice mounted))) <= 10)%nat.
Proof.
  assert (H : messages (app mounted) = []) by reflexivity.
  destruct (C9_limit_counts_messages nan_coercion ann demo_key unreachable mounted
              replied_twice) as (_ & _ & Hturns).
  destruct (Hturns H) as (Hten & _).
  split; [exact H | split; [exact replied_twice_replied | ]].
  exact (Hten replied_twice_replied).
Defined.

Lemma C10_witness :
  accepted ann (asking "hello" []) = true
  /\ stops_short partless
  /\ messages (app (exec (handleSubmit nan_coercion ann demo_key
                            (answered (body_with partless))) (asking "hello" [])))
     = [user_message "hello" t_submit]
  /\ errors (trace (exec (handleSubmit nan_coercion ann demo_key
                            (answered (body_with partless))) (asking "hello" [])))
     = [("Error:", LoggedExn TypeError)].
Proof.
  assert (Hacc : accepted ann (asking "hello" []) = true) by reflexivity.
  assert (Hshort : stops_short partless).
  { apply (short_part partless (JObj [("parts", JArr [])]) (JArr []) JUndefined);
      reflexivity. }
  destruct (C10_extraction_failure_contained nan_coercion ann demo_key
              (answered (body_with partless)) (asking "hello" [])
              {| json := Fulfilled (body_with partless) |} (body_with partless)
              partless [] Hacc eq_refl eq_refl eq_refl Hshort)
    as (_ & Hm & _ & He & _).
  split; [exact Hacc | split; [exact Hshort | split; [exact Hm | exact He]]].
Defined.

(** *** Where the claims as first stated fail *)

(** C2, as first stated, fails: the first call is accepted and its
    generation call fails, the second is accepted and gets its reply; after
    that reply the buffer holds three messages. *)
Lemma C2_counterexample :
  generation_replied (answered (reply_body (JStr "hi"))) (JStr "hi")
  /\ messages (app (run_session nan_coercion ann demo_key failed_then_replied mounted))
     = [user_message "q1" t_submit; user_message "q2" t_submit;
        bot_message (JStr "hi") t_reply]
  /\ Nat.even (List.length
                 (messages (app (run_session nan_coercion ann demo_key
                                   failed_then_replied mounted)))) = false.
Proof.
  split; [apply answered_replied | split; reflexivity].
Qed.

(** C1, as first stated, fails: on a buffer of twenty user turns a call with
    only white space typed is refused by the prompt guard, before the limit
    guard, and no notice is shown. *)
Lemma C1_counterexample :
  user_turns (messages (app at_limit_blank)) = 20%nat
  /\ alerts (trace (exec (handleSubmit nan_coercion ann demo_key
                            (answered (reply_body (JStr "hi")))) at_limit_blank))
     = []
  /\ app (exec (handleSubmit nan_coercion ann demo_key
                  (answered (reply_body (JStr "hi")))) at_limit_blank)
     = app at_limit_blank.
Proof.
  repeat split; vm_compute; reflexivity.
Qed.

(** C6, as first stated, fails: an archive that holds a transcript twice
    still holds it twice after [handleNewChat]; and when the write of a newly
    archived session throws, the buffer is not empty after the call. *)
Lemma C6_counterexample :
  chatSessions (app (exec (handleNewChat plain_stringify (Normal tt))
                       (archived greeting doubled)))
  = [greeting; greeting]
  /\ ~ NoDup (chatSessions (app (exec (handleNewChat plain_stringify (Normal tt))
                                    (archived greeting doubled))))
  /\ messages (app (exec (handleNewChat plain_stringify (Throw quota_exceeded))
                      (archived greeting [])))
     = greeting
  /\ completion (handleNewChat plain_stringify (Throw quota_exceeded))
       (archived greeting [])
     = Throw quota_exceeded.
Proof.
  split; [reflexivity | split; [ | split; reflexivity]].
  intros H. change (NoDup [greeting; greeting]) in H.
  inversion H as [ | x l Hin _]. apply Hin. now left.
Qed.

(** C9, as first stated, fails: eleven submissions whose generation calls
    fail are all accepted into one session (each issues its generation call),
    and the buffer holds eleven user turns. *)
Lemma C9_counterexample :
  user_turns (messages (app (run_session nan_coercion ann demo_key
                               (never_reached 11) mounted))) = 11%nat
  /\ List.length (requests (trace (run_session nan_coercion ann demo_key
                                     (never_reached 11) mounted))) = 11%nat.
Proof.
  split; vm_compute; reflexivity.
Qed.

(** C10, as first stated, fails: the candidates are a non-empty array, the
    first candidate has no [text] at [content.parts[0]] (the path yields
    [undefined]), and yet a bot message is appended and the persistence call
    is issued. *)
Lemma C10_counterexample :
  get_prop (body_with textless) "candidates" = Normal (JArr [textless])
  /\ reply_path textless = Normal JUndefined
  /\ messages (app (exec (handleSubmit nan_coercion ann demo_key
                            (answered (body_with textless))) (asking "hello" [])))
     = [user_message "hello" t_submit; bot_message JUndefined t_reply]
  /\ requests (trace (exec (handleSubmit nan_coercion ann demo_key
                              (answered (body_with textless))) (asking "hello" [])))
     = [GenerateContent demo_key "hello"; SaveChat "hello" JUndefined].
Proof.
  repeat split; reflexivity.
Qed.

(** *** The further properties at concrete inputs *)

Lemma X1_witness :
  history_unusable (delivered holed)
  /\ app (exec (fetchChatHistory (delivered holed)) (asking "" greeting))
     = app (asking "" greeting).
Proof.
  assert (H : history_unusable (delivered holed)).
  { apply (unusable_element _ {| json := Fulfilled holed |}
             [JObj [("prompt", JStr "a"); ("response", JStr "b")]; JNull]);
      [reflexivity | reflexivity | ].
    apply Exists_cons_tl, Exists_cons_hd. reflexivity. }
  split; [exact H | ].
  apply (X1_history_failure_leaves_state (delivered holed) (asking "" greeting) H).
Defined.

Lemma X2_witness :
  Forall (fun chat => nullish chat = false) odd_elements
  /\ List.length
       (messages (app (exec (fetchChatHistory
                               (Fulfilled {| json := Fulfilled (JArr odd_elements) |}))
                            mounted))) = 6%nat.
Proof.
  assert (H : Forall (fun chat => nullish chat = false) odd_elements)
    by (repeat constructor).
  split; [exact H | ].
  destruct (X2_history_any_elements odd_elements mounted H) as (_ & Hlen & _).
  exact Hlen.
Defined.

Lemma X3_witness :
  truthy JNull = false
  /\ exec (history_effect JNull (delivered (JArr (map record_value ten_records)))) mounted
     = mounted.
Proof.
  split; [reflexivity | ].
  destruct (X3_history_effect_contained JNull
              (delivered (JArr (map record_value ten_records))) mounted)
    as (_ & _ & _ & _ & _ & _ & _ & Hsame & _).
  apply Hsame. reflexivity.
Defined.

Lemma X5_witness :
  accepted ann (asking "hello" []) = true
  /\ isLoading (app (exec (handleSubmit nan_coercion ann demo_key
                             (answered (body_with textless))) (asking "hello" [])))
     = false.
Proof.
  assert (Hacc : accepted ann (asking "hello" []) = true) by reflexivity.
  split; [exact Hacc | ].
  apply (X5_submit_reply_or_error nan_coercion ann demo_key
           (answered (body_with textless)) (asking "hello" []) Hacc).
Defined.

Lemma X6_witness :
  accepted ann (asking "hello" []) = true
  /\ prompt (app (exec (handleSubmit nan_coercion ann demo_key unreachable)
                       (asking "hello" []))) = "".
Proof.
  assert (Hacc : accepted ann (asking "hello" []) = true) by reflexivity.
  split; [exact Hacc | ].
  apply (X6_resubmission_does_nothing nan_coercion ann demo_key unreachable unreachable
           (asking "hello" []) Hacc).
Defined.

Lemma X7_witness :
  all_white_space (prompt (app (asking "   " greeting))) = true
  /\ app (exec (handleSubmit nan_coercion ann demo_key unreachable) (asking "   " greeting))
     = app (asking "   " greeting).
Proof.
  assert (H : all_white_space (prompt (app (asking "   " greeting))) = true)
    by reflexivity.
  split; [exact H | ].
  apply (proj1 (X7_white_space_prompt nan_coercion ann demo_key unreachable
                  (asking "   " greeting)) H).
Defined.

Lemma X8_witness :
  messages (app (archived greeting [])) <> []
  /\ chatSessions (app (exec (handleNewChat plain_stringify (Throw quota_exceeded))
                          (archived greeting [])))
     = [greeting]
  /\ messages (app (exec (handleNewChat plain_stringify (Throw quota_exceeded))
                      (archived greeting [])))
     = greeting.
Proof.
  assert (Hne : messages (app (archived greeting [])) <> []) by discriminate.
  split; [exact Hne | ].
  destruct (X8_new_chat_archives_new_transcripts plain_stringify (Throw quota_exceeded)
              (archived greeting []))
    as (_ & _ & _ & _ & Happend & _).
  assert (Hnew : forall session, In session (chatSessions (app (archived greeting []))) ->
                   serial plain_stringify session
                   <> serial plain_stringify (messages (app (archived greeting []))))
    by (intros session []).
  destruct (Happend Hne Hnew) as (Harch & _ & Hthrow).
  split; [exact Harch | ].
  destruct (Hthrow quota_exceeded eq_refl) as (Hm & _). exact Hm.
Defined.

Lemma X9_witness :
  messages (app (archived greeting [greeting])) = messages (app (archived greeting []))
  /\ chatSessions (app (archived greeting [greeting]))
     = chatSessions (app (exec (handleNewChat plain_stringify (Throw quota_exceeded))
                            (archived greeting [])))
  /\ chatSessions (app (exec (handleNewChat plain_stringify (Normal tt))
                          (archived greeting [greeting])))
     = [greeting].
Proof.
  assert (H1 : messages (app (archived greeting [greeting]))
               = messages (app (archived greeting []))) by reflexivity.
  assert (H2 : chatSessions (app (archived greeting [greeting]))
               = chatSessions (app (exec (handleNewChat plain_stringify
                                            (Throw quota_exceeded))
                                      (archived greeting []))))
    by (vm_compute; reflexivity).
  split; [exact H1 | split; [exact H2 | ]].
  apply (X9_same_transcript_archived_once plain_stringify (Throw quota_exceeded)
           (Normal tt) (archived greeting []) (archived greeting [greeting]) H1 H2).
Defined.

Lemma X10_witness :
  at_rest plain_stringify mounted
  /\ NoDup (chatSessions (app (run plain_stringify nan_coercion ann demo_key
                                 busy_day mounted))).
Proof.
  assert (H : at_rest plain_stringify mounted).
  { split; [reflexivity | split; constructor]. }
  split; [exact H | ].
  apply (X10_rest_invariant plain_stringify nan_coercion ann demo_key busy_day mounted H).
Defined.

Lemma X11_witness :
  in_sync plain_stringify mounted
  /\ writes_succeed quiet_day
  /\ behind plain_stringify (run plain_stringify nan_coercion ann demo_key busy_day mounted)
  /\ in_sync plain_stringify
       (run plain_stringify nan_coercion ann demo_key quiet_day mounted).
Proof.
  assert (H : in_sync plain_stringify mounted) by reflexivity.
  assert (Hok : writes_succeed quiet_day) by (repeat constructor).
  destruct (X11_storage_in_sync plain_stringify nan_coercion ann demo_key busy_day
              mounted H) as (Hbehind & _).
  destruct (X11_storage_in_sync plain_stringify nan_coercion ann demo_key quiet_day
              mounted H) as (_ & Hsync).
  split; [exact H | split; [exact Hok | split; [exact Hbehind | exact (Hsync Hok)]]].
Defined.

Lemma X12_witness :
  Z.of_nat (List.length (messages (app mounted))) <= maxMessagesPerSession + 1
  /\ Z.of_nat (List.length
                 (messages (app (run_session nan_coercion ann demo_key
                                   (never_reached 30) mounted))))
     <= maxMessagesPerSession + 1.
Proof.
  assert (H : Z.of_nat (List.length (messages (app mounted))) <= maxMessagesPerSession + 1)
    by (vm_compute; discriminate).
  split; [exact H | ].
  destruct (X12_buffer_tops_out nan_coercion ann demo_key (never_reached 30) mounted H)
    as (Hbound & _).
  exact Hbound.
Defined.

Lemma X13_witness :
  pending_store ann demo_key t_submit (asking "q1" []) = Some waiting_one
  /\ messages (app (exec (handleNewChat plain_stringify (Normal tt)) waiting_one)) = []
  /\ messages
       (app (exec (submit_resume nan_coercion (closure_of t_submit (asking "q1" []))
                     (answered (reply_body (JStr "a1"))))
                  (exec (handleNewChat plain_stringify (Normal tt)) waiting_one)))
     = [user_message "q1" t_submit; bot_message (JStr "a1") t_reply].
Proof.
  assert (Hp : pending_store ann demo_key
                 (at_submit (answered (reply_body (JStr "a1")))) (asking "q1" [])
               = Some waiting_one) by reflexivity.
  destruct (X13_new_chat_while_pending plain_stringify nan_coercion ann demo_key
              (Normal tt) (answered (reply_body (JStr "a1"))) (asking "q1" [])
              waiting_one Hp)
    as (_ & Hdone & Hcleared & _ & Hback & _).
  split; [exact Hp | split; [exact (Hcleared (Hdone eq_refl)) | ]].
  apply (Hback (JStr "a1")). apply answered_replied.
Defined.

Lemma X14_witness :
  pending_store ann demo_key t_submit (asking "q1" []) = Some waiting_one
  /\ pending_store ann demo_key t_submit (exec (setPrompt "q2") waiting_one)
     = Some waiting_two
  /\ messages
       (app (exec (submit_resume nan_coercion
                     (closure_of t_submit (exec (setPrompt "q2") waiting_one))
                     (answered (reply_body (JStr "a2"))))
                  (exec (submit_resume nan_coercion
                           (closure_of t_submit (asking "q1" []))
                           (answered (reply_body (JStr "a1"))))
                        waiting_two)))
     = [user_message "q1" t_submit; user_message "q2" t_submit;
        bot_message (JStr "a2") t_reply].
Proof.
  assert (Hp1 : pending_store ann demo_key
                  (at_submit (answered (reply_body (JStr "a1")))) (asking "q1" [])
                = Some waiting_one) by reflexivity.
  assert (Hp2 : pending_store ann demo_key
                  (at_submit (answered (reply_body (JStr "a2"))))
                  (exec (setPrompt "q2") waiting_one)
                = Some waiting_two) by reflexivity.
  destruct (X14_overlapping_submissions nan_coercion ann demo_key
              (answered (reply_body (JStr "a1"))) (answered (reply_body (JStr "a2")))
              "q2" (asking "q1" []) waiting_one waiting_two (JStr "a1") (JStr "a2")
              Hp1 Hp2 (answered_replied (JStr "a1")) (answered_replied (JStr "a2")))
    as (_ & Hfirst & _).
  split; [exact Hp1 | split; [exact Hp2 | exact Hfirst]].
Defined.

Lemma X15_witness :
  messages (app mounted) = []
  /\ saves (trace mounted) = []
  /\ Forall replied replied_twice
  /\ map authored (messages (app (run_session nan_coercion ann demo_key
                                    replied_twice mounted)))
     = flat_map exchange_lines
         (saves (trace (run_session nan_coercion ann demo_key replied_twice mounted))).
Proof.
  assert (H1 : messages (app mounted) = []) by reflexivity.
  assert (H2 : saves (trace mounted) = []) by reflexivity.
  split; [exact H1 | split; [exact H2 | split; [exact replied_twice_replied | ]]].
  destruct (X15_saved_session_reloads nan_coercion ann demo_key replied_twice mounted
              mounted [] H1 H2 replied_twice_replied) as (Hshown & _).
  exact Hshown.
Defined.

Lemma X16_witness :
  (10 <= List.length ten_records)%nat
  /\ messages
       (app (exec (submit nan_coercion ann demo_key (asked "more" unreachable))
               (exec (fetchChatHistory
                        (Fulfilled {| json := Fulfilled
                                        (JArr (map record_value ten_records)) |}))
                     mounted)))
     = messages
         (app (exec (fetchChatHistory
                       (Fulfilled {| json := Fulfilled
                                       (JArr (map record_value ten_records)) |}))
                    mounted)).
Proof.
  assert (H : (10 <= List.length ten_records)%nat) by (vm_compute; lia).
  split; [exact H | ].
  destruct (X16_history_fills_session plain_stringify nan_coercion ann demo_key
              ten_records mounted (asked "more" unreachable) (Normal tt) H)
    as (Hsame & _).
  exact Hsame.
Defined.
